(** * Knowledge-base front end: token refresh, chat store and stream consumer

    A shallow embedding of the parts of the TypeScript front end that carry
    protocol state:

    - [frontend/src/api/client.ts]: token storage and the axios interceptors;
    - [frontend/src/api/auth.ts] and the auth store ([unnamed/part_001]):
      [logout];
    - [frontend/src/stores/chat.ts]: the chat store ([sendMessage]), with the
      send handler of the chat view ([unnamed/part_003]);
    - the chat API, which follows the router in
      [frontend/src/router/index.ts]: the streaming consumer
      ([streamMessage], lines 171-237).

    Asynchronous functions are cut at their [await]s: the code before an
    [await] is one function, the code resumed after it another, taking the
    outcome of the awaited promise as an argument.  The event loop runs such
    pieces one at a time, so an execution is a list of events. *)

From Stdlib Require Import ZArith List String Ascii Bool Lia Uint63 Floats.
From stdpp Require Import base option list strings pretty gmap.
Import ListNotations.

#[local] Set Warnings "-register-all".
#[local] Open Scope string_scope.
#[local] Open Scope list_scope.

(** ** JavaScript odds and ends *)

(** The outcome of an awaited promise. *)
Inductive Settled (A E : Type) : Type :=
| Fulfilled (value : A)
| Rejected (reason : E).
Arguments Fulfilled {A E} value.
Arguments Rejected {A E} reason.

(** Truthiness of a [string | null]: [null] and the empty string are falsy. *)
Definition truthy_string (s : option string) : bool :=
  match s with
  | Some EmptyString => false
  | Some _ => true
  | None => false
  end.

(** [a || b] on strings where [a] may be [undefined]. *)
Definition or_else (a : option string) (b : string) : string :=
  if truthy_string a then default b a else b.

(** [hay.startsWith(needle)] *)
Fixpoint startsWith (needle hay : string) : bool :=
  match needle, hay with
  | EmptyString, _ => true
  | String a n, String b h => if Ascii.eqb a b then startsWith n h else false
  | String _ _, EmptyString => false
  end.

(** [hay.includes(needle)] *)
Fixpoint includes (needle hay : string) : bool :=
  startsWith needle hay ||
  match hay with
  | EmptyString => false
  | String _ h => includes needle h
  end.

(** [s.slice(n)] for [n >= 0]. *)
Fixpoint slice (n : nat) (s : string) : string :=
  match n, s with
  | O, _ => s
  | S n, String _ s => slice n s
  | S _, EmptyString => EmptyString
  end.

(** ** Token storage ([client.ts], lines 25-46) *)

Module TokenStore.

(** [localStorage] maps keys to string values. *)
Abbreviation Storage := (gmap string string).

Definition ACCESS_TOKEN_KEY : string := "access_token".
Definition REFRESH_TOKEN_KEY : string := "refresh_token".

Definition getAccessToken (ls : Storage) : option string :=
  ls !! ACCESS_TOKEN_KEY.

Definition getRefreshToken (ls : Storage) : option string :=
  ls !! REFRESH_TOKEN_KEY.

Definition setTokens (accessToken refreshToken : string) (ls : Storage)
  : Storage :=
  <[REFRESH_TOKEN_KEY := refreshToken]> (<[ACCESS_TOKEN_KEY := accessToken]> ls).

Definition clearTokens (ls : Storage) : Storage :=
  delete REFRESH_TOKEN_KEY (delete ACCESS_TOKEN_KEY ls).

End TokenStore.

(** ** Logging out ([auth.ts] lines 59-66, auth store [part_001] lines 89-96) *)

Module Auth.
Import TokenStore.

Record User := { user_id : Z; username : string; user_created_at : string }.

(** The auth store's refs. *)
Record AuthStore := {
  user : option User;
  loading : bool;
  error : option string
}.

(** What the page holds: the store and [localStorage]. *)
Record World := { store : AuthStore; localStorage : Storage }.

Section Logout.
(** The response body and the error of [apiClient.post('/auth/logout')]
    are opaque to the code below. *)
Context {Body Err : Type}.

(** [authApi.logout], resumed when the POST settles.  [ls] is
    [localStorage] at that moment: the interceptors may have rewritten
    it while the request was in flight.  The [finally] block runs on
    both outcomes, and the outcome passes through. *)
Definition authApi_logout (post : Settled Body Err) (ls : Storage)
  : Storage * Settled Body Err :=
  match post with
  | Fulfilled data => (clearTokens ls, Fulfilled data)
  | Rejected e => (clearTokens ls, Rejected e)
  end.

(** [useAuthStore().logout], resumed at the same moment: it awaits
    [authApi.logout()] and its own [finally] resets the user and clears
    the tokens again. The promise is [Promise<void>]. *)
Definition logout (post : Settled Body Err) (w : World)
  : World * Settled unit Err :=
  let '(ls, r) := authApi_logout post (localStorage w) in
  let st := {| user := None; loading := loading (store w);
               error := error (store w) |} in
  ({| store := st; localStorage := clearTokens ls |},
   match r with
   | Fulfilled _ => Fulfilled tt
   | Rejected e => Rejected e
   end).
End Logout.

End Auth.

(** ** The HTTP client's response interceptor ([client.ts], lines 48-139) *)

Module Client.
Import TokenStore.

(** An axios request config, as far as the interceptors read and write it.
    [req_id] tells the application's calls apart; axios copies the config,
    custom keys included, when a request is issued again, so the mark
    [_retry] travels with it.  [InternalAxiosRequestConfig] always has a
    [headers] object, of which only [Authorization] matters here. *)
Record Request := {
  req_id : nat;
  url : option string;
  Authorization : option string;
  _retry : bool
}.

Definition set_Authorization (h : string) (cfg : Request) : Request :=
  {| req_id := req_id cfg; url := url cfg; Authorization := Some h;
     _retry := _retry cfg |}.

Definition set_retry (cfg : Request) : Request :=
  {| req_id := req_id cfg; url := url cfg;
     Authorization := Authorization cfg; _retry := true |}.

(** [`Bearer ${token}`] *)
Definition Bearer (token : string) : string := "Bearer " +:+ token.

(** Why a request's promise rejects: with the error of its own response, or
    with the error of the refresh call. *)
Inductive Failure :=
| ResponseFailure (status : option Z)
| RefreshFailure.

(** What the interceptor does to the outside world:
    - [RefreshCall h]: [axios.post(`${BASE_URL}/auth/refresh`, {}, ...)] with
      the header [Authorization: h];
    - [Reissue cfg]: [apiClient(originalRequest)], with the config as it
      leaves the request interceptor;
    - [Fail cfg why]: the promise of this request rejects;
    - [Redirect href]: [window.location.href = href]. *)
Inductive Effect :=
| RefreshCall (authorization : string)
| Reissue (cfg : Request)
| Fail (cfg : Request) (why : Failure)
| Redirect (href : string).

(** The module's variables, [localStorage], and the interceptor calls
    suspended at [await axios.post(...)], each with its [originalRequest]
    and [refreshToken]. *)
Record State := {
  localStorage : Storage;
  isRefreshing : bool;
  refreshSubscribers : list Request;
  awaitingRefresh : list (Request * string)
}.

(** A callback in [refreshSubscribers] closes over its [originalRequest]
    (and over the [resolve] of the promise handed to the caller), so the
    list of callbacks is kept as the list of these requests. *)
Definition subscribeTokenRefresh (cfg : Request) (st : State) : State :=
  {| localStorage := localStorage st; isRefreshing := isRefreshing st;
     refreshSubscribers := refreshSubscribers st ++ [cfg];
     awaitingRefresh := awaitingRefresh st |}.

(** The request interceptor (lines 62-69). *)
Definition requestInterceptor (ls : Storage) (config : Request) : Request :=
  match getAccessToken ls with
  | Some token =>
      if truthy_string (Some token)
      then set_Authorization (Bearer token) config
      else config
  | None => config
  end.

(** [apiClient(cfg)]: the request goes out through the request interceptor. *)
Definition apiClient (ls : Storage) (cfg : Request) : Effect :=
  Reissue (requestInterceptor ls cfg).

(** A subscriber's callback, lines 95-100. *)
Definition subscriberCallback (ls : Storage) (token : string)
    (originalRequest : Request) : Effect :=
  apiClient ls (set_Authorization (Bearer token) originalRequest).

(** [onTokenRefreshed], lines 56-59: the callbacks run in order, and the
    list is emptied by the caller's state update below. *)
Definition onTokenRefreshed (ls : Storage) (token : string)
    (subscribers : list Request) : list Effect :=
  map (subscriberCallback ls token) subscribers.

(** [error.response?.status === 401] *)
Definition is401 (status : option Z) : bool :=
  match status with
  | Some s => (s =? 401)%Z
  | None => false
  end.

(** [originalRequest.url?.includes('/auth/refresh')] *)
Definition isRefreshUrl (cfg : Request) : bool :=
  match url cfg with
  | Some u => includes "/auth/refresh" u
  | None => false
  end.

(** The response interceptor's error handler up to its [await]
    (lines 78-116 and 137). *)
Definition onResponseError (originalRequest : Request) (status : option Z)
    (st : State) : State * list Effect :=
  if is401 status && negb (_retry originalRequest) then
    let refreshToken := getRefreshToken (localStorage st) in
    if negb (truthy_string refreshToken) || isRefreshUrl originalRequest then
      ({| localStorage := clearTokens (localStorage st);
          isRefreshing := isRefreshing st;
          refreshSubscribers := refreshSubscribers st;
          awaitingRefresh := awaitingRefresh st |},
       [Redirect "/login"; Fail originalRequest (ResponseFailure status)])
    else if isRefreshing st then
      (subscribeTokenRefresh originalRequest st, [])
    else
      let token := default "" refreshToken in
      ({| localStorage := localStorage st;
          isRefreshing := true;
          refreshSubscribers := refreshSubscribers st;
          awaitingRefresh :=
            awaitingRefresh st ++ [(set_retry originalRequest, token)] |},
       [RefreshCall (Bearer token)])
  else
    (st, [Fail originalRequest (ResponseFailure status)]).

(** The same handler resumed when the refresh POST settles (lines 118-134).
    A fulfilled POST carries [response.data.data]; a body without it throws
    inside the [try] and is a rejection here. The call resumed is the
    oldest one waiting. *)
Definition onRefreshSettled (r : Settled (string * string) unit) (st : State)
    : State * list Effect :=
  match awaitingRefresh st with
  | [] => (st, [])
  | (originalRequest, _) :: rest =>
      match r with
      | Fulfilled (access_token, refresh_token) =>
          let ls := setTokens access_token refresh_token (localStorage st) in
          ({| localStorage := ls;
              isRefreshing := false;
              refreshSubscribers := [];
              awaitingRefresh := rest |},
           onTokenRefreshed ls access_token (refreshSubscribers st)
           ++ [apiClient ls (set_Authorization (Bearer access_token)
                               originalRequest)])
      | Rejected _ =>
          ({| localStorage := clearTokens (localStorage st);
              isRefreshing := false;
              refreshSubscribers := refreshSubscribers st;
              awaitingRefresh := rest |},
           [Redirect "/login"; Fail originalRequest RefreshFailure])
      end
  end.

(** What the event loop delivers to the interceptor. *)
Inductive Event :=
| ResponseError (cfg : Request) (status : option Z)
| RefreshSettled (r : Settled (string * string) unit).

Definition step (e : Event) (st : State) : State * list Effect :=
  match e with
  | ResponseError cfg status => onResponseError cfg status st
  | RefreshSettled r => onRefreshSettled r st
  end.

(** An execution: the events in the order the event loop delivers them. *)
Fixpoint run (es : list Event) (st : State) : State * list Effect :=
  match es with
  | [] => (st, [])
  | e :: es =>
      let '(st1, out1) := step e st in
      let '(st2, out2) := run es st1 in
      (st2, out1 ++ out2)
  end.

Definition isRefreshCall (x : Effect) : bool :=
  match x with
  | RefreshCall _ => true
  | _ => false
  end.

(** The number of calls made to the token-refresh endpoint. *)
Definition refreshCalls (out : list Effect) : nat :=
  List.length (List.filter isRefreshCall out).

(** The page as it is after a login: tokens stored, nothing in progress. *)
Definition loggedIn (access refresh : string) : State :=
  {| localStorage := setTokens access refresh ∅;
     isRefreshing := false;
     refreshSubscribers := [];
     awaitingRefresh := [] |}.

(** A request as the claims take it: not marked [_retry], and not a call of
    the refresh endpoint. *)
Definition firstFailure (r : Request) : Prop :=
  _retry r = false ∧ isRefreshUrl r = false.

(** The events of [reqs] each receiving a 401, in this order. *)
Definition unauthorized (reqs : list Request) : list Event :=
  map (fun r => ResponseError r (Some 401%Z)) reqs.

(** A request as a flushed subscriber sends it again. *)
Definition replayed (token : string) (r : Request) : Effect :=
  Reissue (set_Authorization (Bearer token) r).

(** At most one refresh call is in flight, and [isRefreshing] says whether
    one is. *)
Definition refreshGate (st : State) : Prop :=
  match awaitingRefresh st with
  | [] => isRefreshing st = false
  | [_] => isRefreshing st = true
  | _ => False
  end.

(** Requests of the application, for the examples. *)
Definition historyRequest : Request :=
  {| req_id := 1; url := Some "/api/history";
     Authorization := Some "Bearer a0"; _retry := false |}.

Definition sessionRequest : Request :=
  {| req_id := 2; url := Some "/api/chat/7";
     Authorization := Some "Bearer a0"; _retry := false |}.

Definition filesRequest : Request :=
  {| req_id := 3; url := Some "/files/list";
     Authorization := Some "Bearer a1"; _retry := false |}.

Definition refreshRequest : Request :=
  {| req_id := 4; url := Some "/auth/refresh";
     Authorization := Some "Bearer a0"; _retry := false |}.

End Client.

(** ** The chat store ([stores/chat.ts]) and the chat view's send handler *)

Module Chat.

(** ['user' | 'ai' | 'system'] *)
Inductive MessageRole := user | ai | system.

Record ChatMessage := {
  id : Z;
  role : MessageRole;
  content : string;
  is_deep_thought : bool;
  thinking_content : option string;
  tokens_used : Z;
  created_at : string
}.

Record ChatSession := {
  session_id : Z;
  title : string;
  message_count : option Z;
  preview : option string;
  session_created_at : string;
  last_active_at : string
}.

Record SendMessageRequest := {
  message : string;
  request_deep_thought : option bool;
  doc_ids : option (list Z);
  model : option string
}.

(** The response envelope. *)
Record ApiResponse (T : Type) := {
  success : bool;
  response_message : string;
  data : T;
  errors : option (list (string * string))
}.
Arguments success {T} _.
Arguments response_message {T} _.
Arguments data {T} _.
Arguments errors {T} _.

(** What a [catch] block reads of the value thrown:
    [axiosError.response?.data?.message]. *)
Record AxiosError := { error_message : option string }.

(** The store's refs. *)
Record ChatStore := {
  sessions : list ChatSession;
  currentSession : option ChatSession;
  messages : list ChatMessage;
  loading : bool;
  sending : bool;
  streamingContent : string;
  error : option string;
  page : Z;
  hasMore : bool
}.

Definition set_messages (ms : list ChatMessage) (st : ChatStore) : ChatStore :=
  {| sessions := sessions st; currentSession := currentSession st;
     messages := ms; loading := loading st; sending := sending st;
     streamingContent := streamingContent st; error := error st;
     page := page st; hasMore := hasMore st |}.

Definition set_sending (b : bool) (st : ChatStore) : ChatStore :=
  {| sessions := sessions st; currentSession := currentSession st;
     messages := messages st; loading := loading st; sending := b;
     streamingContent := streamingContent st; error := error st;
     page := page st; hasMore := hasMore st |}.

Definition set_error (e : option string) (st : ChatStore) : ChatStore :=
  {| sessions := sessions st; currentSession := currentSession st;
     messages := messages st; loading := loading st; sending := sending st;
     streamingContent := streamingContent st; error := e;
     page := page st; hasMore := hasMore st |}.

Definition set_streamingContent (s : string) (st : ChatStore) : ChatStore :=
  {| sessions := sessions st; currentSession := currentSession st;
     messages := messages st; loading := loading st; sending := sending st;
     streamingContent := s; error := error st;
     page := page st; hasMore := hasMore st |}.

Definition set_loading (b : bool) (st : ChatStore) : ChatStore :=
  {| sessions := sessions st; currentSession := currentSession st;
     messages := messages st; loading := b; sending := sending st;
     streamingContent := streamingContent st; error := error st;
     page := page st; hasMore := hasMore st |}.

(** The message [sendMessage] builds from its argument and the clock
    (lines 136-144): [now] is [Date.now()], [iso] is
    [new Date().toISOString()]. *)
Definition userMessage (now : Z) (iso : string) (d : SendMessageRequest)
    : ChatMessage :=
  {| id := now;
     role := user;
     content := message d;
     is_deep_thought := default false (request_deep_thought d);
     thinking_content := None;
     tokens_used := 0;
     created_at := iso |}.

(** [sendMessage] up to its [await] (lines 128-148).  [None] stands for the
    immediate [return false]; otherwise the POST to
    [/api/chat/:sessionId/message] is in flight with these arguments. *)
Definition sendMessage_start (now : Z) (iso : string) (d : SendMessageRequest)
    (st : ChatStore) : ChatStore * option (Z * SendMessageRequest) :=
  match currentSession st with
  | None => (st, None)
  | Some session =>
      let st1 := set_sending true st in
      let st2 := set_error None st1 in
      let st3 := set_streamingContent "" st2 in
      let st4 := set_messages (messages st3 ++ [userMessage now iso d]) st3 in
      (st4, Some (session_id session, d))
  end.

(** [sendMessage] resumed when the POST settles (lines 149-162), with the
    value the promise resolves to. [messages.value.pop()] drops the last
    element, whichever it is. *)
Definition sendMessage_resume
    (r : Settled (ApiResponse ChatMessage) AxiosError) (st : ChatStore)
    : ChatStore * bool :=
  match r with
  | Fulfilled response =>
      if success response then
        (set_sending false (set_messages (messages st ++ [data response]) st),
         true)
      else
        (set_sending false st, false)
  | Rejected err =>
      let st1 :=
        set_error (Some (or_else (error_message err) "Failed to send message"))
                  st in
      let st2 := set_messages (removelast (messages st1)) st1 in
      (set_sending false st2, false)
  end.

(** A call of [sendMessage] during which nothing else touches the store. *)
Definition sendMessage (now : Z) (iso : string) (d : SendMessageRequest)
    (r : Settled (ApiResponse ChatMessage) AxiosError) (st : ChatStore)
    : ChatStore * bool :=
  match sendMessage_start now iso d st with
  | (st1, None) => (st1, false)
  | (st1, Some _) => sendMessage_resume r st1
  end.

(** [createSession] up to its [await] (lines 65-70). *)
Definition createSession_start (st : ChatStore) : ChatStore :=
  set_error None (set_loading true st).

(** The refs of the chat view that [handleSend] reads and writes. *)
Record ChatView := {
  message_input : string;
  isDeepThought : bool;
  selectedDocIds : list Z;
  selectedModel : string
}.

(** Where [handleSend] stops first. *)
Inductive Suspension :=
| Returned
| AwaitCreateSession (title : string)
| AwaitSendMessage (request : option (Z * SendMessageRequest)).

Section HandleSend.
(** [String.prototype.trim], and [s.slice(0, 50)], which counts UTF-16 code
    units. *)
Variable trim : string → string.
Variable slice_0_50 : string → string.

(** [handleSend] of the chat view up to its first [await]
    ([part_003], lines 74-94). *)
Definition handleSend_start (now : Z) (iso : string) (v : ChatView)
    (st : ChatStore) : ChatView * ChatStore * Suspension :=
  let trimmedMessage := trim (message_input v) in
  if negb (truthy_string (Some trimmedMessage)) || sending st then
    (v, st, Returned)
  else
    match currentSession st with
    | None =>
        (v, createSession_start st,
         AwaitCreateSession (slice_0_50 trimmedMessage))
    | Some _ =>
        let v' := {| message_input := "";
                     isDeepThought := isDeepThought v;
                     selectedDocIds := selectedDocIds v;
                     selectedModel := selectedModel v |} in
        let d := {| message := trimmedMessage;
                    request_deep_thought := Some (isDeepThought v);
                    doc_ids := match selectedDocIds v with
                               | [] => None
                               | ids => Some ids
                               end;
                    model := if truthy_string (Some (selectedModel v))
                             then Some (selectedModel v) else None |} in
        let '(st', p) := sendMessage_start now iso d st in
        (v', st', AwaitSendMessage p)
    end.
End HandleSend.

(** A store with an active session and no messages, a request, and the
    server's reply to it, for the examples. *)
Definition testSession : ChatSession :=
  {| session_id := 7; title := "test"; message_count := None;
     preview := None; session_created_at := "2024-01-01T00:00:00.000Z";
     last_active_at := "2024-01-01T00:00:00.000Z" |}.

Definition activeStore : ChatStore :=
  {| sessions := [testSession]; currentSession := Some testSession;
     messages := []; loading := false; sending := false;
     streamingContent := ""; error := None; page := 1; hasMore := true |}.

Definition hello : SendMessageRequest :=
  {| message := "hi"; request_deep_thought := None; doc_ids := None;
     model := None |}.

Definition helloReply : ApiResponse ChatMessage :=
  {| success := true; response_message := "ok";
     data := {| id := 42; role := ai; content := "hello";
                is_deep_thought := false; thinking_content := None;
                tokens_used := 5;
                created_at := "2024-01-01T00:00:01.000Z" |};
     errors := None |}.

Definition typing : ChatView :=
  {| message_input := "again"; isDeepThought := false;
     selectedDocIds := []; selectedModel := "" |}.

End Chat.

(** ** JavaScript values, as [JSON.parse] returns them *)

Module Js.

Inductive JsValue :=
| JNull
| JBool (b : bool)
| JNumber (f : float)
| JString (s : string)
| JArray (items : list JsValue)
| JObject (members : list (string * JsValue)).

(** A value or [undefined]. *)
Definition JsRead := option JsValue.

(** Truthiness, as [if (x)] and [&&] test it. *)
Definition truthy (v : JsRead) : bool :=
  match v with
  | None => false
  | Some JNull => false
  | Some (JBool b) => b
  | Some (JNumber f) => negb (PrimFloat.is_zero f || PrimFloat.is_nan f)
  | Some (JString s) => truthy_string (Some s)
  | Some (JArray _) => true
  | Some (JObject _) => true
  end.

(** The member of that name written last, as [JSON.parse] keeps it. *)
Fixpoint member (key : string) (ms : list (string * JsValue)) : JsRead :=
  match ms with
  | [] => None
  | (k, v) :: ms =>
      match member key ms with
      | Some later => Some later
      | None => if String.eqb k key then Some v else None
      end
  end.

(** [v.key] for a [v] other than [null] and a [key] among [content], [done]
    and [message], which no string, number, boolean or array has. *)
Definition field (key : string) (v : JsValue) : JsRead :=
  match v with
  | JObject ms => member key ms
  | _ => None
  end.

(** An exception value: [error.name] and [error.message]. *)
Record JsError := { name : string; error_text : string }.

(** [new Error(text)] *)
Definition Error (text : string) : JsError :=
  {| name := "Error"; error_text := text |}.

(** The code point 34, the double quote, and the line feed. *)
Definition DQ : ascii := ascii_of_nat 34.
Definition LF : ascii := ascii_of_nat 10.

(** The line terminator. *)
Definition NL : string := String LF EmptyString.

(** Source text with an apostrophe written for each double quote. *)
Fixpoint text (s : string) : string :=
  match s with
  | EmptyString => EmptyString
  | String c r => String (if Ascii.eqb c "'" then DQ else c) (text r)
  end.

End Js.

(** ** A reader for a fragment of JSON

    [JSON.parse] belongs to the platform, and the consumer below takes it as
    a parameter.  This reader serves to run the consumer on concrete
    payloads.  It covers objects, arrays, strings with the two-character
    escapes, [true], [false], [null] and integers below 2^53, and returns
    [None] on everything else: on texts that are not JSON, and on the JSON
    it does not cover (fractions, exponents, [\u] escapes). *)

Module JsonReader.
Import Js.

Definition isWhitespace (c : ascii) : bool :=
  match nat_of_ascii c with
  | 32 | 9 | 10 | 13 => true
  | _ => false
  end.

Fixpoint skipWhitespace (s : string) : string :=
  match s with
  | String c r => if isWhitespace c then skipWhitespace r else s
  | EmptyString => s
  end.

Definition unescape (c : ascii) : option ascii :=
  if Ascii.eqb c DQ then Some DQ
  else if Ascii.eqb c "\" then Some "\"%char
  else if Ascii.eqb c "/" then Some "/"%char
  else if Ascii.eqb c "b" then Some (ascii_of_nat 8)
  else if Ascii.eqb c "f" then Some (ascii_of_nat 12)
  else if Ascii.eqb c "n" then Some (ascii_of_nat 10)
  else if Ascii.eqb c "r" then Some (ascii_of_nat 13)
  else if Ascii.eqb c "t" then Some (ascii_of_nat 9)
  else None.

(** The rest of a string literal after its opening quote. *)
Fixpoint stringBody (s : string) : option (string * string) :=
  match s with
  | EmptyString => None
  | String c r =>
      if Ascii.eqb c DQ then Some (EmptyString, r)
      else if Ascii.eqb c "\" then
        match r with
        | String e r' =>
            x ← unescape e;
            '(t, rest) ← stringBody r';
            Some (String x t, rest)
        | EmptyString => None
        end
      else if (nat_of_ascii c <? 32)%nat then None
      else
        '(t, rest) ← stringBody r;
        Some (String c t, rest)
  end.

Definition digit (c : ascii) : option Z :=
  let n := nat_of_ascii c in
  if (48 <=? n)%nat && (n <=? 57)%nat then Some (Z.of_nat (n - 48)) else None.

Fixpoint digits (acc : Z) (s : string) : Z * string :=
  match s with
  | String c r =>
      match digit c with
      | Some d => digits (10 * acc + d) r
      | None => (acc, s)
      end
  | EmptyString => (acc, s)
  end.

(** [0] or a digit string without a leading zero, not followed by a
    fraction or an exponent. *)
Definition natural (s : string) : option (Z * string) :=
  match s with
  | String c r =>
      d ← digit c;
      let '(n, rest) := if (d =? 0)%Z then (0%Z, r) else digits d r in
      match rest with
      | String c' _ =>
          if bool_decide (is_Some (digit c')) || Ascii.eqb c' "."
             || Ascii.eqb c' "e" || Ascii.eqb c' "E"
          then None else Some (n, rest)
      | EmptyString => Some (n, rest)
      end
  | EmptyString => None
  end.

Definition floatOfZ (n : Z) : option float :=
  if (n <? 2 ^ 53)%Z then Some (PrimFloat.of_uint63 (Uint63.of_Z n)) else None.

Definition numberLiteral (s : string) : option (JsValue * string) :=
  match s with
  | String c r =>
      if Ascii.eqb c "-" then
        '(n, rest) ← natural r;
        f ← floatOfZ n;
        Some (JNumber (PrimFloat.opp f), rest)
      else
        '(n, rest) ← natural s;
        f ← floatOfZ n;
        Some (JNumber f, rest)
  | EmptyString => None
  end.

Fixpoint value (fuel : nat) (s : string) {struct fuel}
    : option (JsValue * string) :=
  match fuel with
  | O => None
  | S fuel =>
      match skipWhitespace s with
      | EmptyString => None
      | String c r =>
          if Ascii.eqb c "{" then
            match skipWhitespace r with
            | String "}" r' => Some (JObject [], r')
            | _ => '(ms, rest) ← members fuel r; Some (JObject ms, rest)
            end
          else if Ascii.eqb c "[" then
            match skipWhitespace r with
            | String "]" r' => Some (JArray [], r')
            | _ => '(vs, rest) ← elements fuel r; Some (JArray vs, rest)
            end
          else if Ascii.eqb c DQ then
            '(t, rest) ← stringBody r; Some (JString t, rest)
          else if startsWith "true" (String c r) then
            Some (JBool true, slice 4 (String c r))
          else if startsWith "false" (String c r) then
            Some (JBool false, slice 5 (String c r))
          else if startsWith "null" (String c r) then
            Some (JNull, slice 4 (String c r))
          else numberLiteral (String c r)
      end
  end
with members (fuel : nat) (s : string) {struct fuel}
    : option (list (string * JsValue) * string) :=
  match fuel with
  | O => None
  | S fuel =>
      match skipWhitespace s with
      | String c r =>
          if Ascii.eqb c DQ then
            '(k, r1) ← stringBody r;
            match skipWhitespace r1 with
            | String ":" r2 =>
                '(v, r3) ← value fuel r2;
                match skipWhitespace r3 with
                | String "," r4 =>
                    '(ms, r5) ← members fuel r4; Some ((k, v) :: ms, r5)
                | String "}" r4 => Some ([(k, v)], r4)
                | _ => None
                end
            | _ => None
            end
          else None
      | EmptyString => None
      end
  end
with elements (fuel : nat) (s : string) {struct fuel}
    : option (list JsValue * string) :=
  match fuel with
  | O => None
  | S fuel =>
      '(v, r1) ← value fuel s;
      match skipWhitespace r1 with
      | String "," r2 => '(vs, r3) ← elements fuel r2; Some (v :: vs, r3)
      | String "]" r2 => Some ([v], r2)
      | _ => None
      end
  end.

Definition parse (s : string) : option JsValue :=
  '(v, rest) ← value (2 * String.length s + 2) s;
  match skipWhitespace rest with
  | EmptyString => Some v
  | _ => None
  end.

End JsonReader.

(** ** The streaming consumer ([streamMessage], [router/index.ts] lines 171-237) *)

Module Stream.
Import Js.

(** The three callbacks, as the calls made on them. *)
Inductive Callback :=
| onChunk (chunk : JsValue)
| onDone (message : JsValue)
| onError (error : JsError).

(** [{ done, value }] of [reader.read()], with [value] already decoded. *)
Inductive ReadResult :=
| Chunk (value : string)
| EndOfStream.

(** The response of [fetch]: [response.ok], [response.status] and whether
    [response.body?.getReader()] yields a reader. *)
Record Response := { ok : bool; status : Z; hasReader : bool }.

(** The chunks of a stream put end to end. *)
Fixpoint join (chunks : list string) : string :=
  match chunks with
  | [] => EmptyString
  | v :: chunks => v +:+ join chunks
  end.

(** [s.split('\n')] *)
Fixpoint split (s : string) : list string :=
  match s with
  | EmptyString => [EmptyString]
  | String c r =>
      if Ascii.eqb c LF then EmptyString :: split r
      else match split r with
           | h :: t => String c h :: t
           | [] => [String c EmptyString]
           end
  end.

(** The lines a stream has delivered whole: all but the last piece. *)
Definition completeLines (chunks : list string) : list string :=
  removelast (split (join chunks)).

(** The arguments of the [onChunk] calls, and of the [onDone] calls. *)
Definition chunkArguments (calls : list Callback) : list JsValue :=
  flat_map (fun c => match c with onChunk v => [v] | _ => [] end) calls.

Definition doneArguments (calls : list Callback) : list JsValue :=
  flat_map (fun c => match c with onDone v => [v] | _ => [] end) calls.

Section Consumer.
(** [JSON.parse]; [None] when it throws. *)
Variable JSON_parse : string → option JsValue.

(** The [try]/[catch] of lines 216-226 for one payload.  The callbacks are
    taken to return normally. Reading [parsed.content] of [null] throws a
    [TypeError], which the [catch] handles like a failure to parse. *)
Definition handlePayload (data : string) : list Callback :=
  match JSON_parse data with
  | None => [onChunk (JString data)]
  | Some JNull => [onChunk (JString data)]
  | Some parsed =>
      (match field "content" parsed with
       | Some content =>
           if truthy (Some content) then [onChunk content] else []
       | None => []
       end)
      ++
      (match field "message" parsed with
       | Some message =>
           if truthy (field "done" parsed) && truthy (Some message)
           then [onDone message] else []
       | None => []
       end)
  end.

(** The body of the [for] loop, lines 210-227. *)
Definition processLine (line : string) : list Callback :=
  if startsWith "data: " line then
    let data := slice 6 line in
    if String.eqb data "[DONE]" then [] else handlePayload data
  else [].

(** One turn of the [while] loop for a chunk, lines 205-228: the new buffer
    and the calls made. *)
Definition onRead (buffer value : string) : string * list Callback :=
  let lines := split (buffer +:+ value) in
  (List.last lines EmptyString, flat_map processLine (removelast lines)).

(** The [catch] at the end of the promise chain, lines 230-234. *)
Definition catchHandler (error : JsError) : list Callback :=
  if negb (String.eqb (name error) "AbortError") then [onError error] else [].

(** Where the promise chain stands. *)
Inductive Phase :=
| Fetching
| Reading (buffer : string)
| Finished.

(** A call of [streamMessage]: its promise chain and its
    [controller.signal.aborted]. *)
Record Consumer := { phase : Phase; aborted : bool }.

(** [streamMessage] returns with the fetch in flight. *)
Definition streamMessage : Consumer :=
  {| phase := Fetching; aborted := false |}.

(** What happens to a call: its fetch settles, a read settles, or the
    handle it returned is invoked. *)
Inductive Input :=
| FetchSettled (r : Settled Response JsError)
| ReadSettled (r : Settled ReadResult JsError)
| Cancel.

Definition finish (c : Consumer) : Consumer :=
  {| phase := Finished; aborted := aborted c |}.

Definition step (i : Input) (c : Consumer) : Consumer * list Callback :=
  match i, phase c with
  | Cancel, _ => ({| phase := phase c; aborted := true |}, [])
  | FetchSettled (Fulfilled response), Fetching =>
      if negb (ok response) then
        (finish c, catchHandler (Error ("HTTP " +:+ pretty (status response))))
      else if negb (hasReader response) then
        (finish c, catchHandler (Error "No response body"))
      else
        ({| phase := Reading EmptyString; aborted := aborted c |}, [])
  | FetchSettled (Rejected error), Fetching => (finish c, catchHandler error)
  | ReadSettled (Fulfilled (Chunk value)), Reading buffer =>
      let '(buffer', calls) := onRead buffer value in
      ({| phase := Reading buffer'; aborted := aborted c |}, calls)
  | ReadSettled (Fulfilled EndOfStream), Reading _ => (finish c, [])
  | ReadSettled (Rejected error), Reading _ => (finish c, catchHandler error)
  | _, _ => (c, [])
  end.

Fixpoint run (inputs : list Input) (c : Consumer) : Consumer * list Callback :=
  match inputs with
  | [] => (c, [])
  | i :: inputs =>
      let '(c1, calls1) := step i c in
      let '(c2, calls2) := run inputs c1 in
      (c2, calls1 ++ calls2)
  end.

(** The platform's side of [AbortController]: once the signal is aborted,
    the pending fetch or read can only reject, and with the [AbortError]
    exception. *)
Definition afterAbort (i : Input) : Prop :=
  match i with
  | Cancel => True
  | FetchSettled (Rejected error) => name error = "AbortError"
  | ReadSettled (Rejected error) => name error = "AbortError"
  | _ => False
  end.

(** The inputs a call can receive: they respect [afterAbort] from the
    moment the signal is aborted. *)
Fixpoint admissible (inputs : list Input) (c : Consumer) : Prop :=
  match inputs with
  | [] => True
  | i :: inputs =>
      (aborted c = true → afterAbort i) ∧ admissible inputs (fst (step i c))
  end.

(** The calls made for the chunks of a stream read to its end. *)
Definition feed (chunks : list string) : list Callback :=
  snd (run (FetchSettled (Fulfilled {| ok := true; status := 200;
                                       hasReader := true |})
            :: map (fun v => ReadSettled (Fulfilled (Chunk v))) chunks
            ++ [ReadSettled (Fulfilled EndOfStream)])
           streamMessage).

End Consumer.

(** A response with a body, and two errors, for the examples: the
    [DOMException] of an aborted fetch and the [TypeError] of a failed one. *)
Definition okResponse : Response :=
  {| ok := true; status := 200; hasReader := true |}.

Definition abortError : JsError :=
  {| name := "AbortError"; error_text := "The operation was aborted." |}.

Definition networkError : JsError :=
  {| name := "TypeError"; error_text := "Failed to fetch" |}.

End Stream.

(** ** The other actions of the chat store ([stores/chat.ts], lines 32-126
    and 165-169) *)

Module ChatActions.
Import Chat.

Record Pagination := {
  pagination_page : Z;
  per_page : Z;
  total : Z;
  total_pages : Z;
  has_next : bool;
  has_prev : bool
}.

(** [PaginatedResponse<T>]: the envelope of a list, with [pagination]. *)
Record PaginatedResponse (T : Type) := {
  envelope : ApiResponse (list T);
  pagination : Pagination
}.
Arguments envelope {T} _.
Arguments pagination {T} _.

Record ChatSessionDetail := {
  session : ChatSession;
  detail_messages : list ChatMessage
}.

Definition set_sessions (l : list ChatSession) (st : ChatStore) : ChatStore :=
  {| sessions := l; currentSession := currentSession st;
     messages := messages st; loading := loading st; sending := sending st;
     streamingContent := streamingContent st; error := error st;
     page := page st; hasMore := hasMore st |}.

Definition set_currentSession (s : option ChatSession) (st : ChatStore)
    : ChatStore :=
  {| sessions := sessions st; currentSession := s;
     messages := messages st; loading := loading st; sending := sending st;
     streamingContent := streamingContent st; error := error st;
     page := page st; hasMore := hasMore st |}.

Definition set_page (p : Z) (st : ChatStore) : ChatStore :=
  {| sessions := sessions st; currentSession := currentSession st;
     messages := messages st; loading := loading st; sending := sending st;
     streamingContent := streamingContent st; error := error st;
     page := p; hasMore := hasMore st |}.

Definition set_hasMore (b : bool) (st : ChatStore) : ChatStore :=
  {| sessions := sessions st; currentSession := currentSession st;
     messages := messages st; loading := loading st; sending := sending st;
     streamingContent := streamingContent st; error := error st;
     page := page st; hasMore := b |}.

(** [currentSessionId]: [currentSession.value?.id || null]. *)
Definition currentSessionId (st : ChatStore) : option Z :=
  match currentSession st with
  | Some s => if (session_id s =? 0)%Z then None else Some (session_id s)
  | None => None
  end.

(** [fetchSessions(reset)] up to its [await] (lines 35-47): the store, and
    the page asked of [chatApi.getHistory] unless the call returned at
    once. *)
Definition fetchSessions_start (reset : bool) (st : ChatStore)
    : ChatStore * option Z :=
  let st1 := if reset then set_hasMore true (set_page 1 st) else st in
  if negb (hasMore st1) then (st1, None)
  else (set_error None (set_loading true st1), Some (page st1)).

(** [fetchSessions(reset)] resumed when the request settles (lines 48-62). *)
Definition fetchSessions_resume (reset : bool)
    (r : Settled (PaginatedResponse ChatSession) AxiosError) (st : ChatStore)
    : ChatStore :=
  match r with
  | Fulfilled response =>
      if success (envelope response) then
        let st1 :=
          if reset then set_sessions (data (envelope response)) st
          else set_sessions (sessions st ++ data (envelope response)) st in
        let st2 := set_hasMore (has_next (pagination response)) st1 in
        set_loading false (set_page (page st2 + 1) st2)
      else set_loading false st
  | Rejected err =>
      set_loading false
        (set_error (Some (or_else (error_message err)
                                  "Failed to fetch sessions")) st)
  end.

(** A call of [fetchSessions] during which nothing else touches the store;
    [r] is not looked at when no request is made. *)
Definition fetchSessions (reset : bool)
    (r : Settled (PaginatedResponse ChatSession) AxiosError) (st : ChatStore)
    : ChatStore :=
  match fetchSessions_start reset st with
  | (st1, None) => st1
  | (st1, Some _) => fetchSessions_resume reset r st1
  end.

(** [createSession] resumed when the request settles (lines 71-85); its
    start is [createSession_start]. *)
Definition createSession_resume
    (r : Settled (ApiResponse ChatSession) AxiosError) (st : ChatStore)
    : ChatStore * option Z :=
  match r with
  | Fulfilled response =>
      if success response then
        let newSession := data response in
        let st1 := set_sessions (newSession :: sessions st) st in
        let st2 := set_currentSession (Some newSession) st1 in
        let st3 := set_messages [] st2 in
        (set_loading false st3, Some (session_id newSession))
      else (set_loading false st, None)
  | Rejected err =>
      (set_loading false
         (set_error (Some (or_else (error_message err)
                                   "Failed to create session")) st),
       None)
  end.

Definition createSession
    (r : Settled (ApiResponse ChatSession) AxiosError) (st : ChatStore)
    : ChatStore * option Z :=
  createSession_resume r (createSession_start st).

(** [loadSession] (lines 88-107): its start is that of [createSession]. *)
Definition loadSession_resume
    (r : Settled (ApiResponse ChatSessionDetail) AxiosError) (st : ChatStore)
    : ChatStore * bool :=
  match r with
  | Fulfilled response =>
      if success response then
        let st1 := set_currentSession (Some (session (data response))) st in
        let st2 := set_messages (detail_messages (data response)) st1 in
        (set_loading false st2, true)
      else (set_loading false st, false)
  | Rejected err =>
      (set_loading false
         (set_error (Some (or_else (error_message err)
                                   "Failed to load session")) st),
       false)
  end.

Definition loadSession
    (r : Settled (ApiResponse ChatSessionDetail) AxiosError) (st : ChatStore)
    : ChatStore * bool :=
  loadSession_resume r (createSession_start st).

(** [deleteSession(sessionId)] resumed when the request settles
    (lines 109-126); it does nothing before its [await]. *)
Definition deleteSession (sessionId : Z)
    (r : Settled (ApiResponse unit) AxiosError) (st : ChatStore)
    : ChatStore * bool :=
  match r with
  | Fulfilled response =>
      if success response then
        let st1 :=
          set_sessions
            (List.filter (fun s => negb (session_id s =? sessionId)%Z)
                         (sessions st)) st in
        let current :=
          match currentSession st1 with
          | Some s => (session_id s =? sessionId)%Z
          | None => false
          end in
        ((if current then set_messages [] (set_currentSession None st1)
          else st1), true)
      else (st, false)
  | Rejected err =>
      (set_error (Some (or_else (error_message err)
                                "Failed to delete session")) st, false)
  end.

(** [clearCurrentSession] (lines 165-169). *)
Definition clearCurrentSession (st : ChatStore) : ChatStore :=
  set_streamingContent "" (set_messages [] (set_currentSession None st)).

(** [toggleDocument] of the chat view ([part_003], lines 117-124) on
    [selectedDocIds]: [indexOf], then [push] or [splice(index, 1)]. *)
Fixpoint indexOf (x : Z) (l : list Z) : option nat :=
  match l with
  | [] => None
  | y :: l => if (y =? x)%Z then Some O else S <$> indexOf x l
  end.

Definition toggleDocument (docId : Z) (selectedDocIds : list Z) : list Z :=
  match indexOf docId selectedDocIds with
  | None => selectedDocIds ++ [docId]
  | Some index => delete index selectedDocIds
  end.

(** A page of history, a second session and two requests, for the
    examples. *)
Definition otherSession : ChatSession :=
  {| session_id := 8; title := "other"; message_count := Some 2%Z;
     preview := None; session_created_at := "2024-01-02T00:00:00.000Z";
     last_active_at := "2024-01-02T00:00:00.000Z" |}.

Definition lastPage (l : list ChatSession) : PaginatedResponse ChatSession :=
  {| envelope := {| success := true; response_message := "ok"; data := l;
                    errors := None |};
     pagination := {| pagination_page := 1; per_page := 20;
                      total := Z.of_nat (List.length l); total_pages := 1;
                      has_next := false; has_prev := false |} |}.

Definition deleted : ApiResponse unit :=
  {| success := true; response_message := "deleted"; data := tt;
     errors := None |}.

End ChatActions.

(** ** The files store ([stores/files.ts]) *)

Module Files.
Import Chat.

(** ['pending' | 'processing' | 'completed' | 'failed'] *)
Inductive ParsingStatus := pending | processing | completed | failed.

Definition status_eqb (a b : ParsingStatus) : bool :=
  match a, b with
  | pending, pending | processing, processing
  | completed, completed | failed, failed => true
  | _, _ => false
  end.

Record FileDocument := {
  id : Z;
  filename : string;
  file_type : string;
  file_size : Z;
  parsing_status : ParsingStatus;
  parsing_error : option string;
  chunk_count : Z;
  upload_time : string;
  parsed_at : option string
}.

Record FileUploadResponse := {
  upload_id : Z;
  upload_filename : string;
  upload_file_type : string;
  upload_file_size : Z;
  upload_parsing_status : ParsingStatus;
  upload_upload_time : string
}.

(** The data of [filesApi.getStatus]. *)
Record FileStatus := {
  status_id : Z;
  status_filename : string;
  status_parsing_status : ParsingStatus;
  status_parsing_error : option string;
  status_chunk_count : Z;
  status_parsed_at : option string
}.

(** The data of [filesApi.reparse]. *)
Record Reparsed := { reparsed_id : Z; reparsed_parsing_status : ParsingStatus }.

(** The store's refs. *)
Record FilesStore := {
  files : list FileDocument;
  loading : bool;
  uploading : bool;
  uploadProgress : Z;
  error : option string;
  page : Z;
  hasMore : bool
}.

Definition set_files (l : list FileDocument) (st : FilesStore) : FilesStore :=
  {| files := l; loading := loading st; uploading := uploading st;
     uploadProgress := uploadProgress st; error := error st;
     page := page st; hasMore := hasMore st |}.

Definition set_error (e : option string) (st : FilesStore) : FilesStore :=
  {| files := files st; loading := loading st; uploading := uploading st;
     uploadProgress := uploadProgress st; error := e;
     page := page st; hasMore := hasMore st |}.

Definition set_upload (busy : bool) (percent : Z) (st : FilesStore)
    : FilesStore :=
  {| files := files st; loading := loading st; uploading := busy;
     uploadProgress := percent; error := error st;
     page := page st; hasMore := hasMore st |}.

(** The getters (lines 24-34). *)
Definition completedFiles (st : FilesStore) : list FileDocument :=
  List.filter (fun f => status_eqb (parsing_status f) completed) (files st).

Definition pendingFiles (st : FilesStore) : list FileDocument :=
  List.filter (fun f => status_eqb (parsing_status f) pending
                        || status_eqb (parsing_status f) processing)
              (files st).

Definition failedFiles (st : FilesStore) : list FileDocument :=
  List.filter (fun f => status_eqb (parsing_status f) failed) (files st).

(** [files.findIndex(f => f.id === docId)], with [None] for [-1]. *)
Fixpoint findIndex (docId : Z) (l : list FileDocument) : option nat :=
  match l with
  | [] => None
  | f :: l => if (id f =? docId)%Z then Some O else S <$> findIndex docId l
  end.

(** [uploadFile] (lines 67-97): its start, the progress callback, and its
    resumption when the upload settles. *)
Definition uploadFile_start (st : FilesStore) : FilesStore :=
  set_error None (set_upload true 0 st).

Definition uploadFile_progress (percent : Z) (st : FilesStore) : FilesStore :=
  set_upload (uploading st) percent st.

Definition newFile (d : FileUploadResponse) : FileDocument :=
  {| id := upload_id d; filename := upload_filename d;
     file_type := upload_file_type d; file_size := upload_file_size d;
     parsing_status := upload_parsing_status d; parsing_error := None;
     chunk_count := 0; upload_time := upload_upload_time d;
     parsed_at := None |}.

Definition uploadFile_resume
    (r : Settled (ApiResponse FileUploadResponse) AxiosError)
    (st : FilesStore) : FilesStore * bool :=
  match r with
  | Fulfilled response =>
      if success response then
        (set_upload false 0 (set_files (newFile (data response) :: files st) st),
         true)
      else (set_upload false 0 st, false)
  | Rejected err =>
      (set_upload false 0
         (set_error (Some (or_else (error_message err) "Upload failed")) st),
       false)
  end.

(** [deleteFile(docId)] resumed when the request settles (lines 99-112). *)
Definition deleteFile (docId : Z)
    (r : Settled (ApiResponse unit) AxiosError) (st : FilesStore)
    : FilesStore * bool :=
  match r with
  | Fulfilled response =>
      if success response then
        (set_files (List.filter (fun f => negb (id f =? docId)%Z) (files st))
                   st, true)
      else (st, false)
  | Rejected err =>
      (set_error (Some (or_else (error_message err) "Failed to delete file"))
                 st, false)
  end.

(** [refreshFileStatus(docId)] resumed when the request settles
    (lines 114-132); the [catch] is empty. *)
Definition refreshFileStatus (docId : Z)
    (r : Settled (ApiResponse FileStatus) AxiosError) (st : FilesStore)
    : FilesStore :=
  match r with
  | Fulfilled response =>
      if success response then
        match findIndex docId (files st) with
        | Some index =>
            match files st !! index with
            | Some f =>
                let d := data response in
                set_files
                  (<[index :=
                      {| id := id f; filename := filename f;
                         file_type := file_type f; file_size := file_size f;
                         parsing_status := status_parsing_status d;
                         parsing_error := status_parsing_error d;
                         chunk_count := status_chunk_count d;
                         upload_time := upload_time f;
                         parsed_at := status_parsed_at d |}]> (files st)) st
            | None => st
            end
        | None => st
        end
      else st
  | Rejected _ => st
  end.

(** [reparseFile(docId)] resumed when the request settles (lines 134-150). *)
Definition reparseFile (docId : Z)
    (r : Settled (ApiResponse Reparsed) AxiosError) (st : FilesStore)
    : FilesStore * bool :=
  match r with
  | Fulfilled response =>
      if success response then
        (match findIndex docId (files st) with
         | Some index =>
             match files st !! index with
             | Some f =>
                 set_files
                   (<[index :=
                       {| id := id f; filename := filename f;
                          file_type := file_type f; file_size := file_size f;
                          parsing_status :=
                            reparsed_parsing_status (data response);
                          parsing_error := parsing_error f;
                          chunk_count := chunk_count f;
                          upload_time := upload_time f;
                          parsed_at := parsed_at f |}]> (files st)) st
             | None => st
             end
         | None => st
         end, true)
      else (st, false)
  | Rejected err =>
      (set_error (Some (or_else (error_message err) "Failed to reparse file"))
                 st, false)
  end.

(** Two files and a status report, for the examples. *)
Definition report : FileDocument :=
  {| id := 1; filename := "report.pdf"; file_type := "pdf";
     file_size := 1024; parsing_status := processing;
     parsing_error := None; chunk_count := 0;
     upload_time := "2024-01-01T00:00:00.000Z"; parsed_at := None |}.

Definition notes : FileDocument :=
  {| id := 2; filename := "notes.md"; file_type := "md";
     file_size := 64; parsing_status := completed;
     parsing_error := None; chunk_count := 3;
     upload_time := "2024-01-01T00:00:00.000Z";
     parsed_at := Some "2024-01-01T00:01:00.000Z" |}.

Definition twoFiles : FilesStore :=
  {| files := [report; notes]; loading := false; uploading := false;
     uploadProgress := 0; error := None; page := 2; hasMore := false |}.

Definition reportParsed : ApiResponse FileStatus :=
  {| success := true; response_message := "ok";
     data := {| status_id := 1; status_filename := "report.pdf";
                status_parsing_status := completed;
                status_parsing_error := None; status_chunk_count := 12;
                status_parsed_at := Some "2024-01-01T00:02:00.000Z" |};
     errors := None |}.

End Files.

(** ** Signing in ([auth.ts] lines 20-53, auth store [part_001] lines 18-87) *)

Module AuthActions.
Import TokenStore Auth.

Record AuthResponse := {
  auth_user : User;
  access_token : string;
  refresh_token : string
}.

Section WithError.
Context {Err : Type}.

(** [authApi.login], resumed when its POST settles with [ls] in
    [localStorage]: the tokens are stored when the envelope says success. *)
Definition authApi_login (post : Settled (Chat.ApiResponse AuthResponse) Err)
    (ls : Storage) : Storage * Settled (Chat.ApiResponse AuthResponse) Err :=
  match post with
  | Fulfilled response =>
      ((if Chat.success response
        then setTokens (access_token (Chat.data response))
                       (refresh_token (Chat.data response)) ls
        else ls),
       Fulfilled response)
  | Rejected e => (ls, Rejected e)
  end.

(** [authApi.register] has the same body, with another URL. *)
Definition authApi_register
    (post : Settled (Chat.ApiResponse AuthResponse) Err) (ls : Storage)
    : Storage * Settled (Chat.ApiResponse AuthResponse) Err :=
  match post with
  | Fulfilled response =>
      ((if Chat.success response
        then setTokens (access_token (Chat.data response))
                       (refresh_token (Chat.data response)) ls
        else ls),
       Fulfilled response)
  | Rejected e => (ls, Rejected e)
  end.
End WithError.

Definition set_user (u : option User) (st : AuthStore) : AuthStore :=
  {| user := u; loading := loading st; error := error st |}.

Definition set_loading (b : bool) (st : AuthStore) : AuthStore :=
  {| user := user st; loading := b; error := error st |}.

Definition set_error (e : option string) (st : AuthStore) : AuthStore :=
  {| user := user st; loading := loading st; error := e |}.

(** The getters [isAuthenticated] and [username]. *)
Definition isAuthenticated (st : AuthStore) : bool :=
  match user st with
  | Some _ => true
  | None => false
  end.

Definition username (st : AuthStore) : string :=
  match user st with
  | Some u => or_else (Some (Auth.username u)) ""
  | None => ""
  end.

(** The store's [login] up to its [await], and resumed with the outcome of
    [authApi.login] (lines 22-42). *)
Definition login_start (st : AuthStore) : AuthStore :=
  set_error None (set_loading true st).

Definition login_resume
    (r : Settled (Chat.ApiResponse AuthResponse) Chat.AxiosError)
    (st : AuthStore) : AuthStore * bool :=
  match r with
  | Fulfilled response =>
      if Chat.success response then
        (set_loading false
           (set_user (Some (auth_user (Chat.data response))) st), true)
      else
        (set_loading false
           (set_error (Some (Chat.response_message response)) st), false)
  | Rejected err =>
      (set_loading false
         (set_error (Some (or_else (Chat.error_message err) "Login failed"))
                    st), false)
  end.

(** A call of [login]: [w] holds the store when the call is made and
    [localStorage] as it is when the POST settles. *)
Definition login (post : Settled (Chat.ApiResponse AuthResponse) Chat.AxiosError)
    (w : World) : World * bool :=
  let '(ls, r) := authApi_login post (localStorage w) in
  let '(st, returned) := login_resume r (login_start (store w)) in
  ({| store := st; localStorage := ls |}, returned).

(** The store's [register] (lines 44-64). *)
Definition register_resume
    (r : Settled (Chat.ApiResponse AuthResponse) Chat.AxiosError)
    (st : AuthStore) : AuthStore * bool :=
  match r with
  | Fulfilled response =>
      if Chat.success response then
        (set_loading false
           (set_user (Some (auth_user (Chat.data response))) st), true)
      else
        (set_loading false
           (set_error (Some (Chat.response_message response)) st), false)
  | Rejected err =>
      (set_loading false
         (set_error (Some (or_else (Chat.error_message err)
                                   "Registration failed")) st), false)
  end.

Definition register
    (post : Settled (Chat.ApiResponse AuthResponse) Chat.AxiosError)
    (w : World) : World * bool :=
  let '(ls, r) := authApi_register post (localStorage w) in
  let '(st, returned) := register_resume r (login_start (store w)) in
  ({| store := st; localStorage := ls |}, returned).

(** [fetchUser] up to its [await] (lines 66-73): [false] stands for the
    immediate [return false], [true] for a request to [/auth/me] in
    flight. *)
Definition fetchUser_start (w : World) : World * bool :=
  if negb (truthy_string (getAccessToken (localStorage w))) then (w, false)
  else ({| store := set_loading true (store w);
           localStorage := localStorage w |}, true).

(** [fetchUser] resumed when [authApi.me()] settles (lines 74-86). *)
Definition fetchUser_resume {Err : Type}
    (r : Settled (Chat.ApiResponse User) Err) (w : World) : World * bool :=
  match r with
  | Fulfilled response =>
      if Chat.success response then
        ({| store := set_loading false
                       (set_user (Some (Chat.data response)) (store w));
            localStorage := localStorage w |}, true)
      else
        ({| store := set_loading false (store w);
            localStorage := localStorage w |}, false)
  | Rejected _ =>
      ({| store := set_loading false (set_user None (store w));
          localStorage := clearTokens (localStorage w) |}, false)
  end.

(** A call of [fetchUser]: [w] is the world when the call is made, and
    [settled] is [localStorage] when [authApi.me()] settles, the response
    interceptor having had its way with the tokens in between. *)
Definition fetchUser {Err : Type}
    (r : Settled (Chat.ApiResponse User) Err) (settled : Storage) (w : World)
    : World * bool :=
  match fetchUser_start w with
  | (w1, false) => (w1, false)
  | (w1, true) =>
      fetchUser_resume r {| store := store w1; localStorage := settled |}
  end.

(** A visitor, a user and the server's answer to her login, for the
    examples. *)
Definition visitor : World :=
  {| store := {| user := None; loading := false; error := None |};
     localStorage := ∅ |}.

Definition alice : User :=
  {| user_id := 1; Auth.username := "alice";
     user_created_at := "2024-01-01T00:00:00.000Z" |}.

Definition welcome : Chat.ApiResponse AuthResponse :=
  {| Chat.success := true; Chat.response_message := "Login successful";
     Chat.data := {| auth_user := alice; access_token := "a0";
                     refresh_token := "r0" |};
     Chat.errors := None |}.

End AuthActions.

(** ** The navigation guard ([router/index.ts], lines 15-74) *)

Module Router.
Import TokenStore.

(** [meta]: a key that is absent reads as [undefined], which is falsy. *)
Record RouteMeta := { requiresAuth : bool; guest : bool }.

Record RouteRecord := {
  path : string;
  name : option string;
  meta : RouteMeta;
  redirect : option string
}.

Definition protected : RouteMeta := {| requiresAuth := true; guest := false |}.
Definition forGuests : RouteMeta := {| requiresAuth := false; guest := true |}.
Definition noMeta : RouteMeta := {| requiresAuth := false; guest := false |}.

Definition routes : list RouteRecord :=
  [ {| path := "/"; name := Some "Chat"; meta := protected;
       redirect := None |};
    {| path := "/files"; name := Some "Files"; meta := protected;
       redirect := None |};
    {| path := "/profile"; name := Some "Profile"; meta := protected;
       redirect := None |};
    {| path := "/login"; name := Some "Login"; meta := forGuests;
       redirect := None |};
    {| path := "/register"; name := Some "Register"; meta := forGuests;
       redirect := None |};
    {| path := "/:pathMatch(.*)*"; name := None; meta := noMeta;
       redirect := Some "/" |} ].

(** The target of a navigation, as far as the guard reads it. *)
Record RouteLocation := { fullPath : string; to_meta : RouteMeta }.

(** What the guard passes to [next]: nothing, or a named route with, for
    the login page, the [redirect] query. *)
Inductive Navigation :=
| proceed
| goTo (name : string) (query_redirect : option string).

(** [router.beforeEach], lines 58-74. *)
Definition beforeEach (ls : Storage) (to : RouteLocation) : Navigation :=
  let token := getAccessToken ls in
  if requiresAuth (to_meta to) && negb (truthy_string token) then
    goTo "Login" (Some (fullPath to))
  else if guest (to_meta to) && truthy_string token then
    goTo "Chat" None
  else proceed.

(** The record of that name in the table. *)
Definition named (n : string) : option RouteRecord :=
  List.find (fun r => match name r with
                      | Some m => String.eqb m n
                      | None => false
                      end) routes.

End Router.

(** ** The theme store ([router/index.ts], lines 270-319) *)

Module Theme.
Import TokenStore.

(** ['dark' | 'light'] *)
Inductive Theme := dark | light.

Definition themeName (t : Theme) : string :=
  match t with
  | dark => "dark"
  | light => "light"
  end.

Definition theme_eqb (a b : Theme) : bool :=
  match a, b with
  | dark, dark | light, light => true
  | _, _ => false
  end.

(** What the store reads and writes outside itself: [localStorage], the
    class list of [document.documentElement], and the answer of
    [matchMedia('(prefers-color-scheme: dark)')]. *)
Record Page := {
  localStorage : Storage;
  classList : gset string;
  prefersDark : bool
}.

(** [getInitialTheme], lines 280-286. *)
Definition getInitialTheme (p : Page) : Theme :=
  let system := if prefersDark p then dark else light in
  match localStorage p !! "theme" with
  | Some saved =>
      if String.eqb saved "dark" then dark
      else if String.eqb saved "light" then light
      else system
  | None => system
  end.

(** [applyTheme], lines 292-299. *)
Definition applyTheme (newTheme : Theme) (p : Page) : Page :=
  {| localStorage := <["theme" := themeName newTheme]> (localStorage p);
     classList := match newTheme with
                  | dark => {["dark"]} ∪ classList p
                  | light => classList p ∖ {["dark"]}
                  end;
     prefersDark := prefersDark p |}.

(** The store as it is set up: [theme] starts as [getInitialTheme()], and
    the watcher, being [immediate], applies it. *)
Definition useThemeStore (p : Page) : Theme * Page :=
  let theme := getInitialTheme p in
  (theme, applyTheme theme p).

(** The watcher of lines 302-304 after an assignment to [theme]: it runs
    when the value has changed. *)
Definition watchTheme (old new : Theme) (p : Page) : Page :=
  if theme_eqb old new then p else applyTheme new p.

(** [toggleTheme] and [setTheme], lines 307-313, with the watcher. *)
Definition toggleTheme (s : Theme * Page) : Theme * Page :=
  let new := match fst s with dark => light | light => dark end in
  (new, watchTheme (fst s) new (snd s)).

Definition setTheme (newTheme : Theme) (s : Theme * Page) : Theme * Page :=
  (newTheme, watchTheme (fst s) newTheme (snd s)).

(** What the user does to the store. *)
Inductive Action := Toggle | SetTo (t : Theme).

Definition act (a : Action) (s : Theme * Page) : Theme * Page :=
  match a with
  | Toggle => toggleTheme s
  | SetTo t => setTheme t s
  end.

(** The page shows the theme and has it saved. *)
Definition shows (t : Theme) (p : Page) : Prop :=
  localStorage p !! "theme" = Some (themeName t) ∧
  ("dark" ∈ classList p ↔ t = dark).

End Theme.

(** ** The validation of the login and register forms ([Login.vue] lines
    25-41, [Register.vue] lines 25-52)

    The fields are kept as their UTF-16 code units, which is what [length]
    counts and what the character class of the pattern tests. *)

Module Forms.

Abbreviation JsString := (list N).

(** [/^[a-zA-Z0-9_]+$/.test(s)] *)
Definition isWordUnit (c : N) : bool :=
  ((97 <=? c) && (c <=? 122) || (65 <=? c) && (c <=? 90)
   || (48 <=? c) && (c <=? 57) || (c =? 95))%N.

Definition wordOnly (s : JsString) : bool :=
  match s with
  | [] => false
  | _ => forallb isWordUnit s
  end.

(** [!s] on a string. *)
Definition empty (s : JsString) : bool :=
  match s with
  | [] => true
  | _ => false
  end.

Module LoginForm.

Definition usernameError (username : JsString) : string :=
  if empty username then ""
  else if (List.length username <? 3)%nat
  then "Username must be at least 3 characters"
  else "".

Definition passwordError (password : JsString) : string :=
  if empty password then ""
  else if (List.length password <? 6)%nat
  then "Password must be at least 6 characters"
  else "".

Definition isValid (username password : JsString) : bool :=
  (3 <=? List.length username)%nat && (6 <=? List.length password)%nat.

End LoginForm.

Module RegisterForm.

Definition usernameError (username : JsString) : string :=
  if empty username then ""
  else if (List.length username <? 3)%nat
  then "Username must be at least 3 characters"
  else if (30 <? List.length username)%nat
  then "Username must be 30 characters or less"
  else if negb (wordOnly username)
  then "Username can only contain letters, numbers, and underscores"
  else "".

Definition passwordError (password : JsString) : string :=
  if empty password then ""
  else if (List.length password <? 6)%nat
  then "Password must be at least 6 characters"
  else "".

Definition confirmPasswordError (confirmPassword password : JsString)
    : string :=
  if empty confirmPassword then ""
  else if negb (bool_decide (confirmPassword = password))
  then "Passwords do not match"
  else "".

Definition isValid (username password confirmPassword : JsString) : bool :=
  (3 <=? List.length username)%nat
  && (List.length username <=? 30)%nat
  && wordOnly username
  && (6 <=? List.length password)%nat
  && bool_decide (confirmPassword = password).

End RegisterForm.

(** The code units of a text of one-byte characters, for the examples. *)
Definition units (s : string) : JsString :=
  map N_of_ascii (list_ascii_of_string s).

End Forms.

(** ** What a stream's callbacks add up to *)

Module StreamObservations.
Import Js Stream.

(** The errors passed to [onError]. *)
Definition errorCalls (calls : list Callback) : list JsError :=
  flat_map (fun c => match c with onError e => [e] | _ => [] end) calls.

End StreamObservations.

(** ** What the interceptor passes on to the callers *)

Module ClientObservations.
Import Client.

(** The rejections among the effects, in their order. *)
Definition failures (out : list Effect) : list (Request * Failure) :=
  flat_map (fun x => match x with Fail cfg why => [(cfg, why)] | _ => [] end)
           out.

(** The failed responses among the events, in their order, each as the
    rejection of its request with its own error. *)
Definition failedResponses (es : list Event) : list (Request * Failure) :=
  flat_map (fun e => match e with
                     | ResponseError cfg status =>
                         [(cfg, ResponseFailure status)]
                     | RefreshSettled _ => []
                     end) es.

End ClientObservations.

(** * Facts *)

(** ** Token storage *)

Section TokenStoreFacts.
Import TokenStore.

Lemma keys_differ : ACCESS_TOKEN_KEY ≠ REFRESH_TOKEN_KEY.
Proof. discriminate. Qed.

Lemma clearTokens_access ls : getAccessToken (clearTokens ls) = None.
Proof.
  unfold getAccessToken, clearTokens.
  rewrite lookup_delete_ne by (symmetry; exact keys_differ).
  apply lookup_delete_eq.
Qed.

Lemma clearTokens_refresh ls : getRefreshToken (clearTokens ls) = None.
Proof. unfold getRefreshToken, clearTokens. apply lookup_delete_eq. Qed.

Lemma clearTokens_other ls k :
  k ≠ ACCESS_TOKEN_KEY → k ≠ REFRESH_TOKEN_KEY →
  clearTokens ls !! k = ls !! k.
Proof.
  intros Ha Hr. unfold clearTokens.
  rewrite lookup_delete_ne by congruence.
  rewrite lookup_delete_ne by congruence. reflexivity.
Qed.

Lemma setTokens_access a r ls : getAccessToken (setTokens a r ls) = Some a.
Proof.
  unfold getAccessToken, setTokens.
  rewrite lookup_insert_ne by (symmetry; exact keys_differ).
  apply lookup_insert_eq.
Qed.

Lemma setTokens_refresh a r ls : getRefreshToken (setTokens a r ls) = Some r.
Proof. unfold getRefreshToken, setTokens. apply lookup_insert_eq. Qed.

End TokenStoreFacts.

(** ** The response interceptor *)

Section ClientFacts.
Import TokenStore Client.

Lemma run_app es1 es2 st :
  run (es1 ++ es2) st =
  let '(st1, out1) := run es1 st in
  let '(st2, out2) := run es2 st1 in
  (st2, out1 ++ out2).
Proof.
  revert st. induction es1 as [| e es1 IH]; intros st; cbn.
  - destruct (run es2 st); reflexivity.
  - destruct (step e st) as [st1 out1]. rewrite IH.
    destruct (run es1 st1) as [st2 out2].
    destruct (run es2 st2) as [st3 out3].
    rewrite app_assoc. reflexivity.
Qed.

Lemma refreshCalls_app out1 out2 :
  refreshCalls (out1 ++ out2) = refreshCalls out1 + refreshCalls out2.
Proof. unfold refreshCalls. rewrite List.filter_app. apply length_app. Qed.

Lemma refreshCalls_replayed token subscribers :
  refreshCalls (map (replayed token) subscribers) = 0.
Proof.
  unfold refreshCalls. induction subscribers as [| q qs IH]; [reflexivity |].
  exact IH.
Qed.

(** The request interceptor leaves a config alone that already carries the
    stored access token. *)
Lemma requestInterceptor_fresh access refresh ls cfg :
  requestInterceptor (setTokens access refresh ls)
                     (set_Authorization (Bearer access) cfg)
  = set_Authorization (Bearer access) cfg.
Proof.
  unfold requestInterceptor. rewrite setTokens_access.
  destruct access; reflexivity.
Qed.

Lemma onTokenRefreshed_replays access refresh ls subscribers :
  onTokenRefreshed (setTokens access refresh ls) access subscribers
  = map (replayed access) subscribers.
Proof.
  unfold onTokenRefreshed. apply map_ext. intros q.
  unfold subscriberCallback, apiClient, replayed.
  rewrite requestInterceptor_fresh. reflexivity.
Qed.

(** While a refresh is in progress, first failures only join the waiting
    list. *)
Lemma unauthorized_while_refreshing qs st :
  isRefreshing st = true →
  truthy_string (getRefreshToken (localStorage st)) = true →
  Forall firstFailure qs →
  run (unauthorized qs) st =
  ({| localStorage := localStorage st;
      isRefreshing := true;
      refreshSubscribers := refreshSubscribers st ++ qs;
      awaitingRefresh := awaitingRefresh st |}, []).
Proof.
  revert st. induction qs as [| q qs IH]; intros st Hflag Htoken Hqs.
  - cbn. rewrite app_nil_r. destruct st; cbn in *. congruence.
  - inversion Hqs as [| q' qs' [Hretry Hurl] Hrest]; subst.
    cbn [unauthorized map run step]. unfold onResponseError.
    rewrite Hretry, Htoken, Hurl, Hflag. cbn [is401 Z.eqb Pos.eqb andb negb orb].
    fold (unauthorized qs).
    rewrite IH; [| exact Hflag | exact Htoken | exact Hrest].
    cbn. rewrite <- app_assoc. reflexivity.
Qed.

(** The first of a batch of first failures, arriving with no refresh in
    progress, starts the refresh; the others wait. *)
Lemma unauthorized_batch r qs st :
  isRefreshing st = false →
  truthy_string (getRefreshToken (localStorage st)) = true →
  Forall firstFailure (r :: qs) →
  run (unauthorized (r :: qs)) st =
  ({| localStorage := localStorage st;
      isRefreshing := true;
      refreshSubscribers := refreshSubscribers st ++ qs;
      awaitingRefresh :=
        awaitingRefresh st
        ++ [(set_retry r, default "" (getRefreshToken (localStorage st)))] |},
   [RefreshCall (Bearer (default "" (getRefreshToken (localStorage st))))]).
Proof.
  intros Hflag Htoken Hall.
  inversion Hall as [| r' qs' [Hretry Hurl] Hrest]; subst.
  cbn [unauthorized map run step]. unfold onResponseError.
  rewrite Hretry, Htoken, Hurl, Hflag. cbn [is401 Z.eqb Pos.eqb andb negb orb].
  fold (unauthorized qs).
  rewrite unauthorized_while_refreshing; [| reflexivity | exact Htoken | exact Hrest].
  cbn. reflexivity.
Qed.

(** The whole execution of a batch followed by a successful refresh. *)
Lemma batch_then_refreshed r qs st access refresh :
  isRefreshing st = false →
  awaitingRefresh st = [] →
  truthy_string (getRefreshToken (localStorage st)) = true →
  Forall firstFailure (r :: qs) →
  run (unauthorized (r :: qs)
       ++ [RefreshSettled (Fulfilled (access, refresh))]) st =
  ({| localStorage := setTokens access refresh (localStorage st);
      isRefreshing := false;
      refreshSubscribers := [];
      awaitingRefresh := [] |},
   RefreshCall (Bearer (default "" (getRefreshToken (localStorage st))))
   :: map (replayed access) (refreshSubscribers st ++ qs)
   ++ [replayed access (set_retry r)]).
Proof.
  intros Hflag Hnone Htoken Hall.
  rewrite run_app, unauthorized_batch by assumption.
  rewrite Hnone. cbn [run step app]. unfold onRefreshSettled.
  cbn [awaitingRefresh localStorage refreshSubscribers app].
  rewrite onTokenRefreshed_replays. unfold apiClient.
  rewrite requestInterceptor_fresh, app_nil_r. reflexivity.
Qed.

(** The same batch followed by a failed refresh. *)
Lemma batch_then_refresh_failed r qs st e :
  isRefreshing st = false →
  awaitingRefresh st = [] →
  truthy_string (getRefreshToken (localStorage st)) = true →
  Forall firstFailure (r :: qs) →
  run (unauthorized (r :: qs) ++ [RefreshSettled (Rejected e)]) st =
  ({| localStorage := clearTokens (localStorage st);
      isRefreshing := false;
      refreshSubscribers := refreshSubscribers st ++ qs;
      awaitingRefresh := [] |},
   [RefreshCall (Bearer (default "" (getRefreshToken (localStorage st))));
    Redirect "/login";
    Fail (set_retry r) RefreshFailure]).
Proof.
  intros Hflag Hnone Htoken Hall.
  rewrite run_app, unauthorized_batch by assumption.
  rewrite Hnone. cbn. reflexivity.
Qed.

Lemma step_refreshGate e st : refreshGate st → refreshGate (fst (step e st)).
Proof.
  unfold refreshGate. intros Hgate. destruct e as [cfg status | r]; cbn.
  - unfold onResponseError.
    destruct (is401 status && negb (_retry cfg)); [| exact Hgate].
    destruct (negb (truthy_string (getRefreshToken (localStorage st)))
              || isRefreshUrl cfg); [exact Hgate |].
    destruct (isRefreshing st) eqn:Hflag; cbn.
    + rewrite Hflag. exact Hgate.
    + destruct (awaitingRefresh st) as [| x [| y l]]; cbn;
        [reflexivity | discriminate | contradiction].
  - unfold onRefreshSettled.
    destruct (awaitingRefresh st) as [| [orig tok] [| y l]] eqn:Hwait;
      [cbn; rewrite Hwait; exact Hgate | | contradiction].
    destruct r as [[a f] | ?]; cbn; reflexivity.
Qed.

Lemma run_refreshGate es st : refreshGate st → refreshGate (fst (run es st)).
Proof.
  revert st. induction es as [| e es IH]; intros st Hgate; [exact Hgate |].
  cbn. pose proof (step_refreshGate e st Hgate) as H1.
  destruct (step e st) as [st1 out1]. specialize (IH st1 H1).
  destruct (run es st1) as [st2 out2]. exact IH.
Qed.

(** Never more than one refresh call in flight, in any execution that
    starts with none. *)
Lemma one_refresh_in_flight es access refresh :
  (List.length (awaitingRefresh (fst (run es (loggedIn access refresh)))) ≤ 1)%nat.
Proof.
  assert (Hgate : refreshGate (loggedIn access refresh)) by reflexivity.
  apply (run_refreshGate es) in Hgate. unfold refreshGate in Hgate.
  destruct (awaitingRefresh _) as [| x [| y l]]; cbn; [lia | lia | contradiction].
Qed.

(** A request waiting for the token meets no failure as long as no refresh
    succeeds: nothing rejects its promise, and it stays in the list. *)
Lemma waiting_request_never_fails es st q :
  In q (refreshSubscribers st) →
  Forall (fun x => req_id (fst x) ≠ req_id q) (awaitingRefresh st) →
  Forall (fun e => match e with
                   | ResponseError cfg _ => req_id cfg ≠ req_id q
                   | RefreshSettled (Fulfilled _) => False
                   | RefreshSettled (Rejected _) => True
                   end) es →
  let '(st', out) := run es st in
  In q (refreshSubscribers st') ∧
  Forall (fun x => match x with
                   | Fail cfg _ | Reissue cfg => req_id cfg ≠ req_id q
                   | _ => True
                   end) out.
Proof.
  revert st. induction es as [| e es IH]; intros st Hq Hwait Hes.
  - cbn. split; [exact Hq | constructor].
  - inversion Hes as [| e' es' He Hrest]; subst. cbn [run].
    assert (Hstep : In q (refreshSubscribers (fst (step e st))) ∧
                    Forall (fun x => req_id (fst x) ≠ req_id q)
                           (awaitingRefresh (fst (step e st))) ∧
                    Forall (fun x => match x with
                                     | Fail cfg _ | Reissue cfg =>
                                         req_id cfg ≠ req_id q
                                     | _ => True
                                     end) (snd (step e st))).
    { destruct e as [cfg status | [[a f] | u]]; [| contradiction |].
      - cbn [step]. unfold onResponseError.
        destruct (is401 status && negb (_retry cfg));
          [destruct (negb (truthy_string (getRefreshToken (localStorage st)))
                     || isRefreshUrl cfg);
           [| destruct (isRefreshing st)] |]; cbn.
        + repeat split; [exact Hq | exact Hwait |].
          repeat constructor. exact He.
        + repeat split; [| exact Hwait | constructor].
          apply in_or_app. left. exact Hq.
        + repeat split; [exact Hq | | repeat constructor].
          apply Forall_app. split; [exact Hwait |].
          repeat constructor. exact He.
        + repeat split; [exact Hq | exact Hwait |]. repeat constructor. exact He.
      - cbn [step]. unfold onRefreshSettled.
        destruct (awaitingRefresh st) as [| [orig tok] rest] eqn:Hw; cbn.
        + rewrite Hw. repeat split; [exact Hq | constructor | constructor].
        + inversion Hwait as [| x l Hx Hl]; subst. cbn in Hx.
          repeat split; [exact Hq | exact Hl |]. repeat constructor. exact Hx. }
    destruct (step e st) as [st1 out1]. cbn in Hstep.
    destruct Hstep as (Hq1 & Hwait1 & Hout1).
    specialize (IH st1 Hq1 Hwait1 Hrest).
    destruct (run es st1) as [st2 out2]. destruct IH as [Hq2 Hout2].
    split; [exact Hq2 |]. apply Forall_app. split; assumption.
Qed.

(** C1, amended: when the 401s of N >= 1 requests, none marked [_retry] and
    none a call of the refresh endpoint, are all handled before the refresh
    response arrives, starting with a refresh token stored and no refresh in
    progress, exactly one refresh call is issued, and if it succeeds every
    one of the N requests is issued again with the new access token. *)
Theorem batch_single_refresh_and_replay
    (st : State) (reqs : list Request) (access refresh : string) :
  reqs ≠ [] →
  isRefreshing st = false →
  awaitingRefresh st = [] →
  truthy_string (getRefreshToken (localStorage st)) = true →
  Forall firstFailure reqs →
  refreshCalls (snd (run (unauthorized reqs) st)) = 1 ∧
  let '(st', out) :=
    run (unauthorized reqs ++ [RefreshSettled (Fulfilled (access, refresh))])
        st in
  refreshCalls out = 1 ∧
  getAccessToken (localStorage st') = Some access ∧
  Forall (fun r => ∃ cfg, In (Reissue cfg) out ∧
                          req_id cfg = req_id r ∧ url cfg = url r ∧
                          Authorization cfg = Some (Bearer access)) reqs.
Proof.
  intros Hne Hflag Hnone Htoken Hall.
  destruct reqs as [| r qs]; [congruence |].
  rewrite unauthorized_batch, batch_then_refreshed by assumption.
  split; [reflexivity |]. split; [| split].
  - change (RefreshCall ?b :: ?l) with ([RefreshCall b] ++ l).
    rewrite !refreshCalls_app. unfold replayed at 1.
    fold (replayed access). rewrite refreshCalls_replayed. reflexivity.
  - apply setTokens_access.
  - constructor.
    + exists (set_Authorization (Bearer access) (set_retry r)).
      split; [| repeat split].
      right. apply in_or_app. right. left. reflexivity.
    + apply List.Forall_forall. intros q Hq.
      exists (set_Authorization (Bearer access) q).
      split; [| repeat split].
      right. apply in_or_app. left.
      apply (in_map (replayed access)). apply in_or_app. right. exact Hq.
Qed.

Lemma batch_single_refresh_and_replay_witness :
  let reqs := [historyRequest; sessionRequest] in
  let out :=
    snd (run (unauthorized reqs ++ [RefreshSettled (Fulfilled ("a1", "r1"))])
             (loggedIn "a0" "r0")) in
  refreshCalls out = 1 ∧
  Forall (fun r => ∃ cfg, In (Reissue cfg) out ∧
                          req_id cfg = req_id r ∧ url cfg = url r ∧
                          Authorization cfg = Some (Bearer "a1")) reqs.
Proof.
  pose proof (batch_single_refresh_and_replay
                (loggedIn "a0" "r0") [historyRequest; sessionRequest]
                "a1" "r1") as H.
  destruct H as [_ H].
  - discriminate.
  - reflexivity.
  - reflexivity.
  - vm_compute. reflexivity.
  - repeat constructor.
  - cbv zeta.
    destruct (run _ _) as [st' out]. cbn [snd].
    destruct H as (H1 & _ & H3). split; assumption.
Defined.

(** C1 as stated fails: a 401 that arrives after the refresh has completed
    finds [isRefreshing] false again and starts a second refresh, and a 401
    on a request to the refresh endpoint starts none. *)
Lemma late_401_second_refresh :
  firstFailure historyRequest ∧ firstFailure sessionRequest ∧
  truthy_string (getRefreshToken (localStorage (loggedIn "a0" "r0"))) = true ∧
  truthy_string
    (getRefreshToken
       (localStorage
          (fst (run [ResponseError historyRequest (Some 401%Z);
                     RefreshSettled (Fulfilled ("a1", "r1"))]
                    (loggedIn "a0" "r0"))))) = true ∧
  refreshCalls
    (snd (run [ResponseError historyRequest (Some 401%Z);
               RefreshSettled (Fulfilled ("a1", "r1"));
               ResponseError sessionRequest (Some 401%Z)]
              (loggedIn "a0" "r0"))) = 2 ∧
  _retry refreshRequest = false ∧
  refreshCalls
    (snd (run [ResponseError refreshRequest (Some 401%Z)]
              (loggedIn "a0" "r0"))) = 0.
Proof. vm_compute. repeat split. Qed.

(** What the failure path does after a batch of 401s: the client clears
    both tokens, resets [isRefreshing], redirects to the login page and
    rejects the request that started the refresh; the requests that were
    waiting are not called back: they stay in the waiting list. *)
Theorem refresh_failure_settles_initiator_only
    (st : State) (r : Request) (qs : list Request) (e : unit) :
  isRefreshing st = false →
  awaitingRefresh st = [] →
  truthy_string (getRefreshToken (localStorage st)) = true →
  Forall firstFailure (r :: qs) →
  let '(st', out) :=
    run (unauthorized (r :: qs) ++ [RefreshSettled (Rejected e)]) st in
  getAccessToken (localStorage st') = None ∧
  getRefreshToken (localStorage st') = None ∧
  isRefreshing st' = false ∧
  refreshSubscribers st' = refreshSubscribers st ++ qs ∧
  out = [RefreshCall (Bearer (default "" (getRefreshToken (localStorage st))));
         Redirect "/login";
         Fail (set_retry r) RefreshFailure].
Proof.
  intros Hflag Hnone Htoken Hall.
  rewrite batch_then_refresh_failed by assumption. cbn.
  split; [apply clearTokens_access |].
  split; [apply clearTokens_refresh |]. repeat split.
Qed.

Lemma refresh_failure_settles_initiator_only_witness :
  let '(st', out) :=
    run (unauthorized [historyRequest; sessionRequest]
         ++ [RefreshSettled (Rejected tt)]) (loggedIn "a0" "r0") in
  getAccessToken (localStorage st') = None ∧
  getRefreshToken (localStorage st') = None ∧
  isRefreshing st' = false ∧
  refreshSubscribers st' = [sessionRequest] ∧
  out = [RefreshCall "Bearer r0"; Redirect "/login";
         Fail (set_retry historyRequest) RefreshFailure].
Proof.
  apply (refresh_failure_settles_initiator_only
           (loggedIn "a0" "r0") historyRequest [sessionRequest] tt).
  - reflexivity.
  - reflexivity.
  - vm_compute. reflexivity.
  - repeat constructor.
Defined.

(** After a failed refresh the request that was waiting has not failed; it
    is still in the waiting list, and nothing rejected or re-issued it. *)
Lemma queued_request_left_pending :
  let '(st', out) :=
    run [ResponseError historyRequest (Some 401%Z);
         ResponseError sessionRequest (Some 401%Z);
         RefreshSettled (Rejected tt)] (loggedIn "a0" "r0") in
  In sessionRequest (refreshSubscribers st') ∧
  Forall (fun x => match x with
                   | Fail cfg _ | Reissue cfg =>
                       req_id cfg ≠ req_id sessionRequest
                   | _ => True
                   end) out.
Proof.
  vm_compute. split; [left; reflexivity |].
  repeat constructor. discriminate.
Qed.

(** C2, the code at the failing input: two requests get a 401, the second
    while the refresh is in progress, and the refresh fails.  The tokens
    are cleared and the request that started the refresh is rejected, but
    the queued request is not: the failure path neither calls nor empties
    [refreshSubscribers], as the success path does, so the request stays
    in the list with its promise pending, and it is the next successful
    refresh, started by another request after a new login, that sends it
    again. *)
Theorem failed_refresh_strands_queued_request :
  let '(st1, out1) :=
    run [ResponseError historyRequest (Some 401%Z);
         ResponseError sessionRequest (Some 401%Z);
         RefreshSettled (Rejected tt)] (loggedIn "a0" "r0") in
  getAccessToken (localStorage st1) = None ∧
  getRefreshToken (localStorage st1) = None ∧
  out1 = [RefreshCall "Bearer r0"; Redirect "/login";
          Fail (set_retry historyRequest) RefreshFailure] ∧
  refreshSubscribers st1 = [sessionRequest] ∧
  let again := {| localStorage := setTokens "a2" "r2" (localStorage st1);
                  isRefreshing := isRefreshing st1;
                  refreshSubscribers := refreshSubscribers st1;
                  awaitingRefresh := awaitingRefresh st1 |} in
  snd (run [ResponseError filesRequest (Some 401%Z);
            RefreshSettled (Fulfilled ("a3", "r3"))] again)
  = [RefreshCall "Bearer r2";
     Reissue (set_Authorization "Bearer a3" sessionRequest);
     Reissue (set_Authorization "Bearer a3" (set_retry filesRequest))].
Proof. vm_compute. repeat split. Qed.

(** C5, the code at the failing input: a request that waited for a refresh
    is issued again without the [_retry] mark, so a second 401 on it starts
    another refresh instead of reaching the caller, and joins the waiting
    list once more when a refresh is already in progress. *)
Theorem queued_retry_reenters_refresh :
  let replay := set_Authorization (Bearer "a1") sessionRequest in
  let '(st1, out1) :=
    run [ResponseError historyRequest (Some 401%Z);
         ResponseError sessionRequest (Some 401%Z);
         RefreshSettled (Fulfilled ("a1", "r1"))] (loggedIn "a0" "r0") in
  In (Reissue replay) out1 ∧
  _retry replay = false ∧
  snd (onResponseError replay (Some 401%Z) st1) = [RefreshCall "Bearer r1"] ∧
  refreshSubscribers
    (fst (run [ResponseError filesRequest (Some 401%Z);
               ResponseError replay (Some 401%Z)] st1)) = [replay].
Proof. vm_compute. repeat split. right. left. reflexivity. Qed.

End ClientFacts.

(** ** The chat store *)

Section ChatFacts.
Import Chat.

Lemma sendMessage_start_active now iso d st session :
  currentSession st = Some session →
  sendMessage_start now iso d st =
  (set_messages (messages st ++ [userMessage now iso d])
     (set_streamingContent "" (set_error None (set_sending true st))),
   Some (session_id session, d)).
Proof. intros Hs. unfold sendMessage_start. rewrite Hs. reflexivity. Qed.

(** A [sendMessage] call with an active session during which nothing else
    touches the store: if it returns true, the list is
    the list before the call followed by the client-made user message and
    the server's reply, two longer, so the client-made message stays;
    if the request throws, the call returns false, the list is the list
    before the call and [error] is set. *)
Theorem sendMessage_outcomes
    (now : Z) (iso : string) (d : SendMessageRequest) (st : ChatStore)
    (session : ChatSession)
    (r : Settled (ApiResponse ChatMessage) AxiosError) :
  currentSession st = Some session →
  let '(st', returned) := sendMessage now iso d r st in
  sending st' = false ∧
  (returned = true →
   ∃ response, r = Fulfilled response ∧
     messages st' = messages st ++ [userMessage now iso d; data response] ∧
     List.length (messages st') = List.length (messages st) + 2) ∧
  (∀ err, r = Rejected err →
     returned = false ∧
     messages st' = messages st ∧
     error st' =
       Some (or_else (error_message err) "Failed to send message")).
Proof.
  intros Hs. unfold sendMessage.
  rewrite (sendMessage_start_active _ _ _ _ _ Hs).
  destruct r as [response | err]; cbn.
  - destruct (success response) eqn:Hok; cbn.
    + split; [reflexivity |]. split; [| intros err Herr; discriminate].
      intros _. exists response. split; [reflexivity |].
      rewrite <- app_assoc. split; [reflexivity |].
      rewrite length_app. reflexivity.
    + split; [reflexivity |]. split; [discriminate |].
      intros err Herr; discriminate.
  - split; [reflexivity |]. split; [discriminate |].
    intros err' Herr. injection Herr as <-.
    rewrite removelast_last. repeat split.
Qed.

Lemma sendMessage_outcomes_witness :
  let '(st', returned) :=
    sendMessage 1700000000000 "2024-01-01T00:00:00.000Z" hello
                (Rejected {| error_message := None |}) activeStore in
  returned = false ∧ messages st' = messages activeStore ∧
  error st' = Some "Failed to send message".
Proof.
  pose proof (sendMessage_outcomes
                1700000000000 "2024-01-01T00:00:00.000Z" hello activeStore
                testSession (Rejected {| error_message := None |})
                eq_refl) as H.
  destruct (sendMessage _ _ _ _ _) as [st' returned].
  destruct H as (_ & _ & H). exact (H _ eq_refl).
Defined.

(** C3, the code at the failing input: the send request resolves with an
    envelope whose [success] is false.  The call fails, returning [false],
    but lines 149-153 take no step back: the provisional user message stays
    in the list and no error is set, where the [catch] of lines 154-159,
    for the same store and a request that throws, removes the message and
    sets the error. *)
Theorem unsuccessful_response_keeps_message :
  let refused := {| success := false; response_message := "no";
                    data := data helloReply; errors := None |} in
  let '(st', returned) :=
    sendMessage 1700000000000 "2024-01-01T00:00:00.000Z" hello
                (Fulfilled refused) activeStore in
  let '(thrown, returned') :=
    sendMessage 1700000000000 "2024-01-01T00:00:00.000Z" hello
                (Rejected {| error_message := Some "no" |}) activeStore in
  returned = false ∧
  messages st'
  = messages activeStore
    ++ [userMessage 1700000000000 "2024-01-01T00:00:00.000Z" hello] ∧
  error st' = None ∧
  returned' = false ∧
  messages thrown = messages activeStore ∧
  error thrown = Some "no".
Proof. cbn. repeat split. Qed.

(** The same for every store with an active session and every envelope
    without success. *)
Lemma unsuccessful_response_never_rolls_back
    (now : Z) (iso : string) (d : SendMessageRequest) (st : ChatStore)
    (session : ChatSession) (response : ApiResponse ChatMessage) :
  currentSession st = Some session →
  success response = false →
  sendMessage now iso d (Fulfilled response) st
  = (set_sending false
       (set_messages (messages st ++ [userMessage now iso d])
          (set_streamingContent "" (set_error None (set_sending true st)))),
     false).
Proof.
  intros Hs Hok. unfold sendMessage.
  rewrite (sendMessage_start_active _ _ _ _ _ Hs). cbn. rewrite Hok.
  reflexivity.
Qed.

(** C4, amended: [sendMessage] sets [sending] when it starts and clears it
    when it settles, and never reads it: started while [sending] is true,
    it appends its user message all the same.  The flag is a gate in the
    chat view only, whose [handleSend] returns without calling
    [sendMessage] when [sending] is true. *)
Theorem sending_is_a_gate_of_the_view_only
    (trim slice_0_50 : string → string) (now : Z) (iso : string)
    (d : SendMessageRequest) (v : ChatView) (st : ChatStore)
    (session : ChatSession)
    (r : Settled (ApiResponse ChatMessage) AxiosError) :
  currentSession st = Some session →
  sending st = true →
  messages (fst (sendMessage_start now iso d st))
    = messages st ++ [userMessage now iso d] ∧
  sending (fst (sendMessage_start now iso d st)) = true ∧
  sending (fst (sendMessage_resume r st)) = false ∧
  handleSend_start trim slice_0_50 now iso v st = (v, st, Returned).
Proof.
  intros Hs Hsending.
  rewrite (sendMessage_start_active _ _ _ _ _ Hs). cbn.
  repeat split.
  - destruct r as [response | err]; cbn; [destruct (success response) |];
      reflexivity.
  - unfold handleSend_start. rewrite Hsending, orb_true_r. reflexivity.
Qed.

Lemma sending_is_a_gate_of_the_view_only_witness :
  let busy := fst (sendMessage_start 1 "t1" hello activeStore) in
  messages (fst (sendMessage_start 2 "t2" hello busy))
    = [userMessage 1 "t1" hello; userMessage 2 "t2" hello] ∧
  handleSend_start (fun s => s) (String.substring 0 50) 2 "t2" typing busy
  = (typing, busy, Returned).
Proof.
  pose proof (sending_is_a_gate_of_the_view_only
                (fun s => s) (String.substring 0 50) 2 "t2" hello typing
                (fst (sendMessage_start 1 "t1" hello activeStore))
                testSession (Fulfilled helloReply) eq_refl eq_refl) as H.
  destruct H as (H1 & _ & _ & H4). split; [exact H1 | exact H4].
Defined.

(** C4 as stated fails: a second [sendMessage] call made while the first
    is in flight, with [sending] true, changes the message list. *)
Lemma second_send_mutates_while_sending :
  let busy := fst (sendMessage_start 1 "t1" hello activeStore) in
  sending busy = true ∧
  messages busy = [userMessage 1 "t1" hello] ∧
  messages (fst (sendMessage_start 2 "t2" hello busy))
    = [userMessage 1 "t1" hello; userMessage 2 "t2" hello].
Proof. cbn. repeat split. Qed.

End ChatFacts.

(** ** The streaming consumer *)

Section StreamFacts.
Import Js Stream.

Lemma append_cons (x : ascii) (a b : string) :
  String x a +:+ b = String x (a +:+ b).
Proof. reflexivity. Qed.

Lemma append_assoc (a b c : string) : (a +:+ b) +:+ c = a +:+ (b +:+ c).
Proof.
  induction a as [| x a IH]; [reflexivity |].
  rewrite !append_cons, IH. reflexivity.
Qed.

Lemma append_empty (a : string) : a +:+ EmptyString = a.
Proof.
  induction a as [| x a IH]; [reflexivity |].
  rewrite append_cons, IH. reflexivity.
Qed.

Lemma last_app_nonempty {A} (l1 l2 : list A) (d : A) :
  l2 ≠ [] → List.last (l1 ++ l2) d = List.last l2 d.
Proof.
  intros Hne. induction l1 as [| x l1 IH]; [reflexivity |].
  cbn [app List.last]. rewrite IH.
  destruct (l1 ++ l2) eqn:Happ; [| reflexivity].
  apply app_eq_nil in Happ. destruct Happ; contradiction.
Qed.

Lemma split_nonempty s : split s ≠ [].
Proof.
  destruct s as [| c r]; cbn; [discriminate |].
  destruct (Ascii.eqb c LF); [discriminate |].
  destruct (split r); discriminate.
Qed.

(** Splitting a text in two pieces: the lines completed by the first piece,
    then the lines of its unfinished line followed by the second piece. *)
Lemma split_append (t1 t2 : string) :
  split (t1 +:+ t2) =
  removelast (split t1) ++ split (List.last (split t1) EmptyString +:+ t2).
Proof.
  induction t1 as [| c r IH]; [reflexivity |].
  rewrite append_cons. cbn [split].
  pose proof (split_nonempty r) as Hr.
  destruct (Ascii.eqb c LF) eqn:Hc.
  - rewrite IH. destruct (split r) as [| h t]; [contradiction |]. reflexivity.
  - rewrite IH. destruct (split r) as [| h [| h' t]]; [contradiction | |].
    + cbn [removelast List.last app]. rewrite append_cons. cbn [split].
      rewrite Hc. reflexivity.
    + cbn [removelast List.last app]. reflexivity.
Qed.

(** The unfinished line holds no line feed. *)
Lemma split_last s :
  split (List.last (split s) EmptyString) = [List.last (split s) EmptyString].
Proof.
  induction s as [| c r IH]; [reflexivity |].
  cbn [split]. pose proof (split_nonempty r) as Hr.
  destruct (Ascii.eqb c LF) eqn:Hc.
  - destruct (split r) as [| h t]; [contradiction |]. exact IH.
  - destruct (split r) as [| h [| h' t]]; [contradiction | |].
    + cbn [List.last] in *. cbn [split]. rewrite Hc, IH. reflexivity.
    + exact IH.
Qed.

Section WithParser.
Variable parse : string → option JsValue.

Lemma run_append inputs1 inputs2 c :
  run parse (inputs1 ++ inputs2) c =
  let '(c1, calls1) := run parse inputs1 c in
  let '(c2, calls2) := run parse inputs2 c1 in
  (c2, calls1 ++ calls2).
Proof.
  revert c. induction inputs1 as [| i inputs1 IH]; intros c; cbn [app run].
  - destruct (run parse inputs2 c). reflexivity.
  - destruct (step parse i c) as [c1 calls1]. rewrite IH.
    destruct (run parse inputs1 c1) as [c2 calls2].
    destruct (run parse inputs2 c2) as [c3 calls3].
    rewrite app_assoc. reflexivity.
Qed.

(** Reading chunks one by one calls back as reading their concatenation
    at once would: the buffer carries the unfinished line over. *)
Lemma reads_as_one (chunks : list string) (buffer : string) (a : bool) :
  split buffer = [buffer] →
  run parse (map (fun v => ReadSettled (Fulfilled (Chunk v))) chunks)
      {| phase := Reading buffer; aborted := a |} =
  ({| phase :=
        Reading (List.last (split (buffer +:+ join chunks)) EmptyString);
      aborted := a |},
   flat_map (processLine parse)
            (removelast (split (buffer +:+ join chunks)))).
Proof.
  revert buffer. induction chunks as [| v chunks IH]; intros buffer Hb.
  - cbn. rewrite append_empty, Hb. reflexivity.
  - cbn [map run step phase join]. unfold onRead. cbn [aborted].
    rewrite IH by apply split_last.
    rewrite <- append_assoc, (split_append (buffer +:+ v)).
    rewrite removelast_app by apply split_nonempty.
    rewrite last_app_nonempty by apply split_nonempty.
    rewrite flat_map_app. reflexivity.
Qed.

Lemma feed_lines (chunks : list string) :
  feed parse chunks = flat_map (processLine parse) (completeLines chunks).
Proof.
  unfold feed, completeLines. cbn [run step phase streamMessage ok hasReader negb].
  rewrite run_append, reads_as_one by reflexivity.
  cbn. rewrite app_nil_r. reflexivity.
Qed.

Lemma processLine_data (data : string) :
  data ≠ "[DONE]" → processLine parse ("data: " +:+ data) = handlePayload parse data.
Proof.
  intros Hd. unfold processLine.
  change (startsWith "data: " ("data: " +:+ data)) with true.
  change (slice 6 ("data: " +:+ data)) with data.
  apply String.eqb_neq in Hd. cbv iota zeta. rewrite Hd. reflexivity.
Qed.

(** Lines never fire [onError]. *)
Lemma processLine_no_error line :
  Forall (fun c => match c with onError _ => False | _ => True end)
         (processLine parse line).
Proof.
  unfold processLine. destruct (startsWith "data: " line); [| constructor].
  destruct (String.eqb _ _); [constructor |]. unfold handlePayload.
  destruct (parse _) as [parsed |]; [| repeat constructor].
  destruct parsed; try (repeat constructor);
    apply Forall_app; split;
    repeat match goal with
           | |- context [match ?x with _ => _ end] => destruct x
           end; repeat constructor.
Qed.

Lemma onRead_no_error buffer value :
  Forall (fun c => match c with onError _ => False | _ => True end)
         (snd (onRead parse buffer value)).
Proof.
  unfold onRead. cbn [snd]. induction (removelast _) as [| l ls IH]; cbn.
  - constructor.
  - apply Forall_app. split; [apply processLine_no_error | exact IH].
Qed.

Lemma catchHandler_spec error :
  catchHandler error =
  if String.eqb (name error) "AbortError" then [] else [onError error].
Proof. unfold catchHandler. destruct (String.eqb _ _); reflexivity. Qed.

(** [onError] is only ever called from the final [catch], and never with
    an [AbortError]. *)
Lemma step_onError i c e :
  In (onError e) (snd (step parse i c)) → name e ≠ "AbortError".
Proof.
  assert (Hcatch : ∀ e', In (onError e) (catchHandler e') →
                         name e ≠ "AbortError").
  { intros e'. rewrite catchHandler_spec.
    destruct (String.eqb (name e') "AbortError") eqn:Hn; [intros [] |].
    intros [Heq | []]. injection Heq as ->. apply String.eqb_neq. exact Hn. }
  unfold step.
  destruct i as [[response | error] | [[value |] | error] |];
    destruct (phase c) as [| buffer |]; cbn -[catchHandler]; try (intros []);
    try (apply Hcatch).
  - destruct (negb (ok response)); [apply Hcatch |].
    destruct (negb (hasReader response)); [apply Hcatch | intros []].
  - pose proof (onRead_no_error buffer value) as Hno.
    unfold onRead in Hno. cbn [snd] in Hno.
    intros Hin. rewrite List.Forall_forall in Hno.
    destruct (Hno _ Hin).
Qed.

Lemma run_onError inputs c e :
  In (onError e) (snd (run parse inputs c)) → name e ≠ "AbortError".
Proof.
  revert c. induction inputs as [| i inputs IH]; intros c; cbn; [intros [] |].
  pose proof (step_onError i c e) as Hstep.
  destruct (step parse i c) as [c1 calls1]. specialize (IH c1).
  destruct (run parse inputs c1) as [c2 calls2]. cbn in *.
  intros Hin. apply in_app_or in Hin. destruct Hin; auto.
Qed.

Lemma step_stays_aborted i c :
  aborted c = true → aborted (fst (step parse i c)) = true.
Proof.
  intros Ha. unfold step.
  destruct i as [[response | error] | [[value |] | error] |];
    destruct (phase c) as [| buffer |]; cbn; try exact Ha; try reflexivity.
  destruct (negb (ok response)); [exact Ha |].
  destruct (negb (hasReader response)); exact Ha.
Qed.

(** After the abort, whatever the platform delivers, nothing is called. *)
Lemma aborted_run_silent inputs c :
  aborted c = true → admissible parse inputs c →
  snd (run parse inputs c) = [].
Proof.
  revert c. induction inputs as [| i inputs IH]; intros c Ha Hadm;
    [reflexivity |].
  destruct Hadm as [Hi Hrest]. specialize (Hi Ha).
  pose proof (step_stays_aborted i c Ha) as Ha1.
  assert (Hsilent : snd (step parse i c) = []).
  { unfold step.
    destruct i as [[response | error] | [[value |] | error] |];
      cbn in Hi; try contradiction;
      destruct (phase c); cbn -[catchHandler]; try reflexivity;
      rewrite catchHandler_spec;
      apply String.eqb_eq in Hi; rewrite Hi; reflexivity. }
  cbn [run]. destruct (step parse i c) as [c1 calls1]. cbn in *.
  specialize (IH c1 Ha1 Hrest).
  destruct (run parse inputs c1) as [c2 calls2]. cbn in *.
  subst. reflexivity.
Qed.

End WithParser.

Lemma handlePayload_value parse data parsed :
  parse data = Some parsed → parsed ≠ JNull →
  handlePayload parse data =
  (match field "content" parsed with
   | Some content => if truthy (Some content) then [onChunk content] else []
   | None => []
   end)
  ++
  (match field "message" parsed with
   | Some message =>
       if truthy (field "done" parsed) && truthy (Some message)
       then [onDone message] else []
   | None => []
   end).
Proof.
  intros Hp Hnull. unfold handlePayload. rewrite Hp.
  destruct parsed; congruence || reflexivity.
Qed.

(** C6, amended: the calls made for a stream are those of its complete
    lines, in the order of the lines.  A line without the [data: ] prefix
    makes no call.  For a [data: ] line whose payload is not [[DONE]]: a
    payload that [JSON.parse] rejects, or parses to [null], is passed to
    [onChunk] as it is; otherwise [onChunk] is called once with the
    [content] when that is truthy and not at all when it is absent or falsy
    (the empty string included), then [onDone] is called once with the
    [message] when [done] and [message] are both truthy and not at all
    otherwise. *)
Theorem data_lines_fire_callbacks
    (parse : string → option JsValue) (chunks : list string)
    (line data : string) (parsed : JsValue) :
  feed parse chunks = flat_map (processLine parse) (completeLines chunks) ∧
  (startsWith "data: " line = false → processLine parse line = []) ∧
  (data ≠ "[DONE]" → parse data = None →
   processLine parse ("data: " +:+ data) = [onChunk (JString data)]) ∧
  (data ≠ "[DONE]" → parse data = Some JNull →
   processLine parse ("data: " +:+ data) = [onChunk (JString data)]) ∧
  (data ≠ "[DONE]" → parse data = Some parsed → parsed ≠ JNull →
   let calls := processLine parse ("data: " +:+ data) in
   calls = map onChunk (chunkArguments calls)
           ++ map onDone (doneArguments calls) ∧
   (∀ content, field "content" parsed = Some content →
               truthy (Some content) = true →
               chunkArguments calls = [content]) ∧
   (truthy (field "content" parsed) = false → chunkArguments calls = []) ∧
   (∀ message, field "message" parsed = Some message →
               truthy (Some message) = true →
               truthy (field "done" parsed) = true →
               doneArguments calls = [message]) ∧
   (truthy (field "done" parsed) && truthy (field "message" parsed) = false →
    doneArguments calls = [])).
Proof.
  split; [apply feed_lines |].
  split; [intros Hprefix; unfold processLine; rewrite Hprefix; reflexivity |].
  split; [intros Hd Hp; rewrite processLine_data by exact Hd;
          unfold handlePayload; rewrite Hp; reflexivity |].
  split; [intros Hd Hp; rewrite processLine_data by exact Hd;
          unfold handlePayload; rewrite Hp; reflexivity |].
  intros Hd Hp Hnull. cbv zeta.
  rewrite processLine_data by exact Hd.
  rewrite (handlePayload_value _ _ _ Hp Hnull).
  destruct (field "content" parsed) as [content |] eqn:Hcontent;
    destruct (field "message" parsed) as [message |] eqn:Hmessage;
    repeat match goal with
           | |- context [truthy ?v] => destruct (truthy v) eqn:?
           end;
    cbn [andb app map flat_map chunkArguments doneArguments];
    repeat split; intros; simplify_eq; try reflexivity; try discriminate;
    congruence.
Qed.

Lemma data_lines_fire_callbacks_witness :
  let terminal :=
    text "{'content':'!','done':true,'message':{'id':42,'role':'ai'}}" in
  feed JsonReader.parse
       [text "data: {'content':'Hel"; text "lo'}" +:+ NL +:+ "data: " +:+ terminal
        +:+ NL]
  = [onChunk (JString "Hello"); onChunk (JString "!");
     onDone (JObject [("id", JNumber 42); ("role", JString "ai")])] ∧
  processLine JsonReader.parse "event: ping" = [] ∧
  processLine JsonReader.parse ("data: " +:+ "oops") = [onChunk (JString "oops")] ∧
  chunkArguments (processLine JsonReader.parse ("data: " +:+ terminal))
  = [JString "!"] ∧
  doneArguments (processLine JsonReader.parse ("data: " +:+ terminal))
  = [JObject [("id", JNumber 42); ("role", JString "ai")]].
Proof.
  intros terminal.
  pose (parsed :=
    JObject [("content", JString "!"); ("done", JBool true);
             ("message", JObject [("id", JNumber 42); ("role", JString "ai")])]).
  destruct (data_lines_fire_callbacks JsonReader.parse
              [text "data: {'content':'Hel";
               text "lo'}" +:+ NL +:+ "data: " +:+ terminal +:+ NL]
              "event: ping" "oops" parsed) as (H1 & H2 & H3 & _ & _).
  destruct (data_lines_fire_callbacks JsonReader.parse [] "" terminal parsed)
    as (_ & _ & _ & _ & H5).
  destruct H5 as (_ & Hchunk & _ & Hdone & _).
  - intros E. vm_compute in E. discriminate.
  - vm_compute. reflexivity.
  - discriminate.
  - split; [rewrite H1; vm_compute; reflexivity |].
    split; [apply H2; reflexivity |].
    split; [apply H3; [discriminate | vm_compute; reflexivity] |].
    split.
    + apply (Hchunk (JString "!")); reflexivity.
    + apply (Hdone (JObject [("id", JNumber 42); ("role", JString "ai")]));
        reflexivity.
Defined.

(** C6 as stated fails: a payload with an empty [content] makes no call; the
    payload [[DONE]], which is not JSON, makes no call either; and [null],
    which is JSON without [content] or [done], is passed to [onChunk]. *)
Lemma data_line_exceptions :
  JsonReader.parse (text "{'content':''}")
  = Some (JObject [("content", JString "")]) ∧
  feed JsonReader.parse [text "data: {'content':''}" +:+ NL] = [] ∧
  JsonReader.parse "[DONE]" = None ∧
  feed JsonReader.parse ["data: [DONE]" +:+ NL] = [] ∧
  JsonReader.parse "null" = Some JNull ∧
  feed JsonReader.parse ["data: null" +:+ NL] = [onChunk (JString "null")].
Proof. vm_compute. repeat split. Qed.

(** C7: a payload cut in two by a chunk boundary makes one [onChunk] call,
    with the whole content, once its line is complete, and none before,
    for every [JSON.parse] that reads the payload as the object it is. *)
Theorem split_payload_one_chunk (parse : string → option JsValue) :
  parse (text "{'content':'Hello'}")
  = Some (JObject [("content", JString "Hello")]) →
  snd (run parse [FetchSettled (Fulfilled okResponse);
                  ReadSettled (Fulfilled (Chunk (text "data: {'content':'Hel")))]
           streamMessage) = [] ∧
  feed parse [text "data: {'content':'Hel"; text "lo'}" +:+ NL]
  = [onChunk (JString "Hello")].
Proof.
  intros Hp. split; [reflexivity |].
  assert (Hlines : completeLines [text "data: {'content':'Hel";
                                  text "lo'}" +:+ NL]
                   = ["data: " +:+ text "{'content':'Hello'}"])
    by (vm_compute; reflexivity).
  rewrite feed_lines, Hlines. cbn [flat_map].
  rewrite processLine_data by (intros E; vm_compute in E; discriminate).
  unfold handlePayload. rewrite Hp. reflexivity.
Qed.

Lemma split_payload_one_chunk_witness :
  feed JsonReader.parse [text "data: {'content':'Hel"; text "lo'}" +:+ NL]
  = [onChunk (JString "Hello")].
Proof.
  apply (split_payload_one_chunk JsonReader.parse).
  vm_compute. reflexivity.
Defined.

(** C8: the input [data: [DONE]] followed by a line feed, alone, makes no
    call at all, neither [onChunk] nor [onDone] nor [onError], and leaves
    the consumer reading with an empty buffer. *)
Theorem done_sentinel_is_silent (parse : string → option JsValue) :
  feed parse ["data: [DONE]" +:+ NL] = [] ∧
  run parse [FetchSettled (Fulfilled okResponse);
             ReadSettled (Fulfilled (Chunk ("data: [DONE]" +:+ NL)))]
      streamMessage
  = ({| phase := Reading EmptyString; aborted := false |}, []).
Proof. split; reflexivity. Qed.

(** C9: the handle [streamMessage] returns aborts the signal; from then on,
    with the pending fetch or read rejecting with [AbortError] as the
    platform has it, no callback is called, [onError] included; and in
    every execution [onError] is only ever called with an error that is
    not an [AbortError]. *)
Theorem abort_never_fires_onError
    (parse : string → option JsValue) (before after : list Input) :
  let c := fst (run parse (before ++ [Cancel]) streamMessage) in
  admissible parse after c →
  aborted c = true ∧
  snd (run parse after c) = [] ∧
  (∀ inputs e, In (onError e) (snd (run parse inputs streamMessage)) →
               name e ≠ "AbortError").
Proof.
  cbv zeta. intros Hadm.
  assert (Ha : aborted (fst (run parse (before ++ [Cancel]) streamMessage))
               = true).
  { rewrite run_append.
    destruct (run parse before streamMessage) as [c0 calls0]. reflexivity. }
  split; [exact Ha |].
  split; [apply aborted_run_silent; assumption |].
  intros inputs e. apply run_onError.
Qed.

Lemma abort_never_fires_onError_witness :
  let c :=
    fst (run JsonReader.parse
             [FetchSettled (Fulfilled okResponse);
              ReadSettled (Fulfilled (Chunk (text "data: {'content':'Hi'}" +:+ NL)));
              Cancel] streamMessage) in
  aborted c = true ∧
  snd (run JsonReader.parse [ReadSettled (Rejected abortError)] c) = [].
Proof.
  pose proof (abort_never_fires_onError JsonReader.parse
                [FetchSettled (Fulfilled okResponse);
                 ReadSettled (Fulfilled (Chunk (text "data: {'content':'Hi'}" +:+ NL)))]
                [ReadSettled (Rejected abortError)]) as H.
  cbv zeta in H. destruct H as (H1 & H2 & _).
  - split; [intros _; reflexivity | exact I].
  - split; [exact H1 | exact H2].
Defined.

(** A failure that is not a cancellation does reach [onError]. *)
Example network_failure_fires_onError (parse : string → option JsValue) :
  snd (run parse [FetchSettled (Rejected networkError)] streamMessage)
  = [onError networkError].
Proof. reflexivity. Qed.

End StreamFacts.

(** C10: when a logout call settles, by returning or by throwing, neither
    token is stored any more and the user is null, whatever the world looked
    like when the POST to /auth/logout settled. *)
Theorem logout_always_clears {Body Err : Type}
    (post : Settled Body Err) (w : Auth.World) :
  let w' := fst (Auth.logout post w) in
  TokenStore.getAccessToken (Auth.localStorage w') = None ∧
  TokenStore.getRefreshToken (Auth.localStorage w') = None ∧
  Auth.user (Auth.store w') = None ∧
  snd (Auth.logout post w) =
    match post with Fulfilled _ => Fulfilled tt | Rejected e => Rejected e end.
Proof.
  destruct post as [data | e]; cbn;
    (split; [apply clearTokens_access |]);
    (split; [apply clearTokens_refresh |]);
    split; reflexivity.
Qed.

(** * Further facts *)

(** ** Token storage and the request interceptor *)

Section TokenFacts.
Import TokenStore Client.

(** The token store round trips: what [setTokens] stores is what the
    getters return, a later pair replaces an earlier one, [clearTokens]
    removes both and is idempotent, and neither touches another key. *)
Theorem token_store_round_trips
    (a r a' r' : string) (ls : Storage) (k : string) :
  getAccessToken (setTokens a r ls) = Some a ∧
  getRefreshToken (setTokens a r ls) = Some r ∧
  setTokens a' r' (setTokens a r ls) = setTokens a' r' ls ∧
  getAccessToken (clearTokens (setTokens a r ls)) = None ∧
  getRefreshToken (clearTokens (setTokens a r ls)) = None ∧
  clearTokens (clearTokens ls) = clearTokens ls ∧
  (k ≠ ACCESS_TOKEN_KEY → k ≠ REFRESH_TOKEN_KEY →
   setTokens a r ls !! k = ls !! k ∧ clearTokens ls !! k = ls !! k).
Proof.
  split; [apply setTokens_access |].
  split; [apply setTokens_refresh |].
  split.
  { unfold setTokens. apply map_eq. intros i.
    destruct (decide (i = REFRESH_TOKEN_KEY)) as [-> | Hr].
    - rewrite !lookup_insert_eq. reflexivity.
    - rewrite !(lookup_insert_ne _ REFRESH_TOKEN_KEY) by congruence.
      destruct (decide (i = ACCESS_TOKEN_KEY)) as [-> | Ha].
      + rewrite !lookup_insert_eq. reflexivity.
      + repeat (rewrite lookup_insert_ne by congruence). reflexivity. }
  split; [apply clearTokens_access |].
  split; [apply clearTokens_refresh |].
  split.
  { apply map_eq. intros i.
    destruct (decide (i = ACCESS_TOKEN_KEY)) as [-> | Ha].
    - fold (getAccessToken (clearTokens (clearTokens ls))).
      fold (getAccessToken (clearTokens ls)).
      rewrite !clearTokens_access. reflexivity.
    - destruct (decide (i = REFRESH_TOKEN_KEY)) as [-> | Hr].
      + fold (getRefreshToken (clearTokens (clearTokens ls))).
        fold (getRefreshToken (clearTokens ls)).
        rewrite !clearTokens_refresh. reflexivity.
      + rewrite clearTokens_other by assumption. reflexivity. }
  intros Ha Hr. split; [| apply clearTokens_other; assumption].
  unfold setTokens. rewrite !lookup_insert_ne by congruence. reflexivity.
Qed.

Lemma token_store_round_trips_witness :
  setTokens "a1" "r1" (<["theme" := "dark"]> ∅) !! "theme" = Some "dark" ∧
  clearTokens (<["theme" := "dark"]> ∅) !! "theme" = Some "dark".
Proof.
  pose proof (token_store_round_trips
                "a1" "r1" "a2" "r2" (<["theme" := "dark"]> ∅) "theme") as H.
  destruct H as (_ & _ & _ & _ & _ & _ & H).
  destruct H as [H1 H2]; [discriminate | discriminate |].
  rewrite H1, H2. split; reflexivity.
Defined.

(** The request interceptor puts the stored access token on every request,
    whatever header the request came with, and changes nothing else; with
    no token stored, or an empty one, the request goes out as it is. *)
Theorem requestInterceptor_attaches_stored_token
    (ls : Storage) (cfg : Request) :
  (∀ token, getAccessToken ls = Some token → token ≠ "" →
     Authorization (requestInterceptor ls cfg) = Some (Bearer token)) ∧
  (truthy_string (getAccessToken ls) = false →
     requestInterceptor ls cfg = cfg) ∧
  req_id (requestInterceptor ls cfg) = req_id cfg ∧
  url (requestInterceptor ls cfg) = url cfg ∧
  _retry (requestInterceptor ls cfg) = _retry cfg ∧
  requestInterceptor ls (requestInterceptor ls cfg) = requestInterceptor ls cfg.
Proof.
  unfold requestInterceptor.
  destruct (getAccessToken ls) as [[| c token] |]; cbn;
    repeat split; intros; simplify_eq; try reflexivity; congruence.
Qed.

Lemma requestInterceptor_attaches_stored_token_witness :
  Authorization
    (requestInterceptor (setTokens "a1" "r1" ∅) historyRequest)
  = Some "Bearer a1" ∧
  requestInterceptor (clearTokens (setTokens "a1" "r1" ∅)) historyRequest
  = historyRequest.
Proof.
  destruct (requestInterceptor_attaches_stored_token
              (setTokens "a1" "r1" ∅) historyRequest) as (H1 & _).
  destruct (requestInterceptor_attaches_stored_token
              (clearTokens (setTokens "a1" "r1" ∅)) historyRequest)
    as (_ & H2 & _).
  split.
  - apply (H1 "a1"); [vm_compute; reflexivity | discriminate].
  - apply H2. vm_compute. reflexivity.
Defined.

End TokenFacts.

(** ** More on the response interceptor *)

Section InterceptorFacts.
Import TokenStore Client ClientObservations.

Lemma waiting_request_never_fails_witness :
  let '(st', out) :=
    run [RefreshSettled (Rejected tt);
         ResponseError filesRequest (Some 500%Z)]
        (fst (run (unauthorized [historyRequest; sessionRequest])
                  (loggedIn "a0" "r0"))) in
  In sessionRequest (refreshSubscribers st') ∧
  Forall (fun x => match x with
                   | Fail cfg _ | Reissue cfg =>
                       req_id cfg ≠ req_id sessionRequest
                   | _ => True
                   end) out.
Proof.
  apply (waiting_request_never_fails
           [RefreshSettled (Rejected tt);
            ResponseError filesRequest (Some 500%Z)]
           (fst (run (unauthorized [historyRequest; sessionRequest])
                     (loggedIn "a0" "r0")))
           sessionRequest).
  - vm_compute. left. reflexivity.
  - vm_compute. repeat constructor. discriminate.
  - repeat constructor. discriminate.
Defined.

(** The request that started a refresh is retried once only: a 401 on its
    retry reaches the caller, with no further refresh call and no change
    to the tokens or the refresh state. *)
Theorem initiator_retry_fails_through
    (st : State) (r : Request) (qs : list Request) (access refresh : string) :
  isRefreshing st = false →
  awaitingRefresh st = [] →
  truthy_string (getRefreshToken (localStorage st)) = true →
  Forall firstFailure (r :: qs) →
  let retry := set_Authorization (Bearer access) (set_retry r) in
  let '(st1, out1) :=
    run (unauthorized (r :: qs)
         ++ [RefreshSettled (Fulfilled (access, refresh))]) st in
  In (Reissue retry) out1 ∧
  onResponseError retry (Some 401%Z) st1
  = (st1, [Fail retry (ResponseFailure (Some 401%Z))]).
Proof.
  intros Hflag Hnone Htoken Hall. cbv zeta.
  rewrite batch_then_refreshed by assumption.
  split; [| reflexivity].
  right. apply in_or_app. right. left. reflexivity.
Qed.

Lemma initiator_retry_fails_through_witness :
  let retry := set_Authorization (Bearer "a1") (set_retry historyRequest) in
  let '(st1, out1) :=
    run (unauthorized [historyRequest; sessionRequest]
         ++ [RefreshSettled (Fulfilled ("a1", "r1"))]) (loggedIn "a0" "r0") in
  In (Reissue retry) out1 ∧
  onResponseError retry (Some 401%Z) st1
  = (st1, [Fail retry (ResponseFailure (Some 401%Z))]).
Proof.
  apply (initiator_retry_fails_through
           (loggedIn "a0" "r0") historyRequest [sessionRequest] "a1" "r1").
  - reflexivity.
  - reflexivity.
  - vm_compute. reflexivity.
  - repeat constructor.
Defined.

Lemma step_without_refresh_token e st :
  truthy_string (getRefreshToken (localStorage st)) = false →
  awaitingRefresh st = [] →
  truthy_string (getRefreshToken (localStorage (fst (step e st)))) = false ∧
  awaitingRefresh (fst (step e st)) = [] ∧
  Forall (fun x => match x with
                   | RefreshCall _ | Reissue _ => False
                   | _ => True
                   end) (snd (step e st)) ∧
  failures (snd (step e st)) = failedResponses [e].
Proof.
  intros Htoken Hnone. destruct e as [cfg status | r]; cbn [step].
  - unfold onResponseError. rewrite Htoken. cbn [negb orb].
    destruct (is401 status && negb (_retry cfg));
      cbn [fst snd localStorage awaitingRefresh].
    + rewrite clearTokens_refresh. repeat split; [exact Hnone |].
      repeat constructor.
    + repeat split; [exact Htoken | exact Hnone |]. repeat constructor.
  - unfold onRefreshSettled. rewrite Hnone.
    cbn [fst snd localStorage awaitingRefresh].
    repeat split; [exact Htoken | exact Hnone | constructor].
Qed.

Lemma failures_app (out1 out2 : list Effect) :
  failures (out1 ++ out2) = failures out1 ++ failures out2.
Proof. unfold failures. apply flat_map_app. Qed.

(** With no refresh token stored and no refresh in flight, no execution
    ever calls the refresh endpoint or issues a request again, and every
    failed response is passed on: the rejections are those of the failed
    responses, one for each, in their order and with their own errors. *)
Theorem no_refresh_token_no_refresh (es : list Event) (st : State) :
  truthy_string (getRefreshToken (localStorage st)) = false →
  awaitingRefresh st = [] →
  refreshCalls (snd (run es st)) = 0 ∧
  Forall (fun x => match x with
                   | RefreshCall _ | Reissue _ => False
                   | _ => True
                   end) (snd (run es st)) ∧
  failures (snd (run es st)) = failedResponses es.
Proof.
  revert st. induction es as [| e es IH]; intros st Htoken Hnone.
  - split; [reflexivity |]. split; [constructor | reflexivity].
  - cbn [run].
    destruct (step_without_refresh_token e st Htoken Hnone)
      as (Htoken1 & Hnone1 & Hout1 & Hfail1).
    destruct (step e st) as [st1 out1]. cbn [fst snd] in *.
    destruct (IH st1 Htoken1 Hnone1) as (Hcalls & Hout2 & Hfail2).
    destruct (run es st1) as [st2 out2]. cbn [fst snd] in *.
    split; [| split; [apply Forall_app; split; assumption |]].
    + rewrite refreshCalls_app, Hcalls, Nat.add_0_r.
      clear - Hout1. unfold refreshCalls.
      induction Hout1 as [| x l Hx Hl IHl]; [reflexivity |].
      destruct x; cbn in *; try contradiction; exact IHl.
    + rewrite failures_app, Hfail1, Hfail2.
      change (e :: es) with ([e] ++ es).
      unfold failedResponses. rewrite flat_map_app. reflexivity.
Qed.

Lemma no_refresh_token_no_refresh_witness :
  let out :=
    snd (run [ResponseError historyRequest (Some 401%Z);
              ResponseError sessionRequest (Some 500%Z)]
             {| localStorage := ∅; isRefreshing := false;
                refreshSubscribers := []; awaitingRefresh := [] |}) in
  refreshCalls out = 0 ∧
  Forall (fun x => match x with
                   | RefreshCall _ | Reissue _ => False
                   | _ => True
                   end) out ∧
  failures out = [(historyRequest, ResponseFailure (Some 401%Z));
                  (sessionRequest, ResponseFailure (Some 500%Z))].
Proof.
  apply (no_refresh_token_no_refresh
           [ResponseError historyRequest (Some 401%Z);
            ResponseError sessionRequest (Some 500%Z)]
           {| localStorage := ∅; isRefreshing := false;
              refreshSubscribers := []; awaitingRefresh := [] |});
    reflexivity.
Defined.

End InterceptorFacts.

(** ** Signing in, and the navigation guard *)

Section AuthFacts.
Import TokenStore Auth AuthActions Router.

(** A [login] call settles with [loading] false.  It returns true exactly
    when the server's envelope says success; then the user and both tokens
    are the response's and no error is set.  On an envelope without
    success and on a request that throws it returns false, the tokens and
    the user are as they were, and the error is the envelope's message, or
    the thrown error's, or ['Login failed']. *)
Theorem login_outcomes
    (post : Settled (Chat.ApiResponse AuthResponse) Chat.AxiosError)
    (w : World) :
  let '(w', returned) := login post w in
  loading (store w') = false ∧
  (returned = true ↔
   ∃ response, post = Fulfilled response ∧ Chat.success response = true) ∧
  (∀ response, post = Fulfilled response → Chat.success response = true →
     returned = true ∧
     user (store w') = Some (auth_user (Chat.data response)) ∧
     getAccessToken (localStorage w')
       = Some (access_token (Chat.data response)) ∧
     getRefreshToken (localStorage w')
       = Some (refresh_token (Chat.data response)) ∧
     error (store w') = None) ∧
  (∀ response, post = Fulfilled response → Chat.success response = false →
     returned = false ∧
     localStorage w' = localStorage w ∧
     user (store w') = user (store w) ∧
     error (store w') = Some (Chat.response_message response)) ∧
  (∀ err, post = Rejected err →
     returned = false ∧
     localStorage w' = localStorage w ∧
     user (store w') = user (store w) ∧
     error (store w')
       = Some (or_else (Chat.error_message err) "Login failed")).
Proof.
  unfold login, authApi_login, login_resume.
  destruct post as [response | err].
  - destruct (Chat.success response) eqn:Hok; cbn.
    + split; [reflexivity |].
      split; [split; [intros _; exists response; split; [reflexivity | exact Hok]
                     | reflexivity] |].
      split.
      { intros response' [= <-] _. split; [reflexivity |].
        split; [reflexivity |].
        split; [apply setTokens_access |].
        split; [apply setTokens_refresh | reflexivity]. }
      split; [intros response' [= <-] Hno; congruence |].
      intros err Herr. discriminate.
    + split; [reflexivity |].
      split; [split; [discriminate |];
              intros (response' & [= <-] & Hyes); congruence |].
      split; [intros response' [= <-] Hyes; congruence |].
      split; [intros response' [= <-] _; repeat split |].
      intros err Herr. discriminate.
  - cbn. split; [reflexivity |].
    split; [split; [discriminate | intros (response & Hr & _); discriminate] |].
    split; [intros response Hr; discriminate |].
    split; [intros response Hr; discriminate |].
    intros err' [= <-]. repeat split.
Qed.

Lemma login_outcomes_witness :
  let '(w', returned) := login (Fulfilled welcome) visitor in
  returned = true ∧
  user (store w') = Some alice ∧
  getAccessToken (localStorage w') = Some "a0" ∧
  getRefreshToken (localStorage w') = Some "r0" ∧
  error (store w') = None.
Proof.
  pose proof (login_outcomes (Fulfilled welcome) visitor) as H.
  destruct (login (Fulfilled welcome) visitor) as [w' returned].
  destruct H as (_ & _ & H & _). exact (H welcome eq_refl eq_refl).
Defined.

(** [register] behaves as [login] does, with its own fallback message. *)
Theorem register_outcomes
    (post : Settled (Chat.ApiResponse AuthResponse) Chat.AxiosError)
    (w : World) :
  let '(w', returned) := register post w in
  loading (store w') = false ∧
  (returned = true →
   ∃ response, post = Fulfilled response ∧
     user (store w') = Some (auth_user (Chat.data response)) ∧
     getAccessToken (localStorage w')
       = Some (access_token (Chat.data response)) ∧
     getRefreshToken (localStorage w')
       = Some (refresh_token (Chat.data response))) ∧
  (∀ err, post = Rejected err →
   returned = false ∧
   localStorage w' = localStorage w ∧
   error (store w')
     = Some (or_else (Chat.error_message err) "Registration failed")).
Proof.
  unfold register, authApi_register, register_resume.
  destruct post as [response | err].
  - destruct (Chat.success response) eqn:Hok; cbn.
    + split; [reflexivity |]. split; [| intros ? ?; discriminate].
      intros _. exists response. split; [reflexivity |].
      split; [reflexivity |].
      split; [apply setTokens_access | apply setTokens_refresh].
    + split; [reflexivity |]. split; [discriminate |].
      intros ? ?; discriminate.
  - cbn. split; [reflexivity |]. split; [discriminate |].
    intros err' Herr. injection Herr as <-. repeat split.
Qed.

Lemma register_outcomes_witness :
  let '(w', returned) :=
    register (Rejected {| Chat.error_message := Some "Username taken" |})
             visitor in
  returned = false ∧
  localStorage w' = localStorage visitor ∧
  error (store w') = Some "Username taken".
Proof.
  pose proof (register_outcomes
                (Rejected {| Chat.error_message := Some "Username taken" |})
                visitor) as H.
  destruct (register _ _) as [w' returned].
  destruct H as (_ & _ & H). exact (H _ eq_refl).
Defined.

(** [fetchUser] without a stored access token asks the server nothing and
    changes nothing.  With one, the call settles with [loading] false: a
    request that throws clears both tokens and the user and returns false;
    an envelope with success sets the user to its data and returns true; an
    envelope without success keeps the user and returns false; and in
    these two cases [localStorage] is as it was found when the request
    settled. *)
Theorem fetchUser_outcomes {Err : Type}
    (r : Settled (Chat.ApiResponse User) Err) (settled : Storage)
    (w : World) :
  (truthy_string (getAccessToken (localStorage w)) = false →
   fetchUser_start w = (w, false) ∧ fetchUser r settled w = (w, false)) ∧
  (truthy_string (getAccessToken (localStorage w)) = true →
   let '(w', returned) := fetchUser r settled w in
   loading (store w') = false ∧
   (∀ e, r = Rejected e →
      returned = false ∧
      user (store w') = None ∧
      getAccessToken (localStorage w') = None ∧
      getRefreshToken (localStorage w') = None) ∧
   (∀ response, r = Fulfilled response → Chat.success response = true →
      returned = true ∧
      user (store w') = Some (Chat.data response) ∧
      localStorage w' = settled) ∧
   (∀ response, r = Fulfilled response → Chat.success response = false →
      returned = false ∧
      user (store w') = user (store w) ∧
      localStorage w' = settled)).
Proof.
  unfold fetchUser, fetchUser_start. split; intros Htoken; rewrite Htoken; cbn.
  - split; reflexivity.
  - destruct r as [response | e]; cbn.
    + destruct (Chat.success response) eqn:Hok; cbn.
      * split; [reflexivity |]. split; [intros ? ?; discriminate |].
        split; [intros response' [= <-] _; repeat split |].
        intros response' [= <-] Hno. congruence.
      * split; [reflexivity |]. split; [intros ? ?; discriminate |].
        split; [intros response' [= <-] Hyes; congruence |].
        intros response' [= <-] _. repeat split.
    + split; [reflexivity |]. split.
      * intros e' _. split; [reflexivity |]. split; [reflexivity |].
        split; [apply clearTokens_access | apply clearTokens_refresh].
      * split; intros response Hr; discriminate.
Qed.

Lemma fetchUser_outcomes_witness :
  fetchUser (Err := unit) (Rejected tt) ∅ visitor = (visitor, false) ∧
  let loggedIn := fst (login (Fulfilled welcome) visitor) in
  let rotated := setTokens "a1" "r1" (localStorage loggedIn) in
  let '(w', returned) :=
    fetchUser (Err := unit)
              (Fulfilled {| Chat.success := true; Chat.response_message := "ok";
                            Chat.data := alice; Chat.errors := None |})
              rotated loggedIn in
  returned = true ∧ user (store w') = Some alice ∧
  localStorage w' = rotated.
Proof.
  split.
  - apply (fetchUser_outcomes (Err := unit) (Rejected tt) ∅ visitor).
    reflexivity.
  - intros loggedIn rotated.
    pose proof (fetchUser_outcomes (Err := unit)
                  (Fulfilled {| Chat.success := true;
                                Chat.response_message := "ok";
                                Chat.data := alice; Chat.errors := None |})
                  rotated loggedIn) as [_ H].
    specialize (H ltac:(vm_compute; reflexivity)).
    destruct (fetchUser _ _ _) as [w' returned].
    destruct H as (_ & _ & H & _). exact (H _ eq_refl eq_refl).
Defined.

(** The guard and the table of routes: a navigation to a page of the table
    goes through without a token only for Login and Register, and with a
    token only for Chat, Files and Profile. *)
Theorem guard_separates_pages
    (ls : Storage) (record : RouteRecord) (full : string) :
  In record routes → redirect record = None →
  beforeEach ls {| fullPath := full; to_meta := meta record |} = proceed →
  (truthy_string (getAccessToken ls) = false ∧
   (name record = Some "Login" ∨ name record = Some "Register")) ∨
  (truthy_string (getAccessToken ls) = true ∧
   (name record = Some "Chat" ∨ name record = Some "Files"
    ∨ name record = Some "Profile")).
Proof.
  intros Hin Hredirect. unfold beforeEach.
  cbn in Hin.
  destruct (truthy_string (getAccessToken ls));
    [right | left]; (split; [reflexivity |]);
    repeat (destruct Hin as [<- | Hin]); try contradiction;
    cbn in *; try discriminate; auto.
Qed.

Lemma guard_separates_pages_witness :
  let record := {| path := "/login"; name := Some "Login";
                   meta := forGuests; redirect := None |} in
  (truthy_string (getAccessToken ∅) = false ∧
   (name record = Some "Login" ∨ name record = Some "Register")) ∨
  (truthy_string (getAccessToken ∅) = true ∧
   (name record = Some "Chat" ∨ name record = Some "Files"
    ∨ name record = Some "Profile")).
Proof.
  apply (guard_separates_pages
           ∅ {| path := "/login"; name := Some "Login"; meta := forGuests;
                redirect := None |} "/login").
  - cbn. tauto.
  - reflexivity.
  - reflexivity.
Defined.

(** The guard never sends a navigation in circles: where it redirects to
    is a page of the table, and the navigation to that page goes through
    with the same storage. *)
Theorem guard_redirects_settle
    (ls : Storage) (to : RouteLocation) (target : string)
    (query : option string) (full : string) :
  beforeEach ls to = goTo target query →
  ∃ record, named target = Some record ∧ redirect record = None ∧
            beforeEach ls {| fullPath := full; to_meta := meta record |}
            = proceed.
Proof.
  unfold beforeEach.
  destruct (truthy_string (getAccessToken ls)) eqn:Htoken;
    destruct (requiresAuth (to_meta to)), (guest (to_meta to)); cbn;
    intros H; try discriminate; injection H as <- <-;
    eexists; (split; [reflexivity |]); cbn; rewrite ?Htoken; split; reflexivity.
Qed.

Lemma guard_redirects_settle_witness :
  ∃ record, named "Login" = Some record ∧ redirect record = None ∧
            beforeEach ∅ {| fullPath := "/login?redirect=/files";
                            to_meta := meta record |} = proceed.
Proof.
  apply (guard_redirects_settle
           ∅ {| fullPath := "/files"; to_meta := protected |}
           "Login" (Some "/files") "/login?redirect=/files").
  reflexivity.
Defined.

Lemma logout_always_clears_storage {Body Err : Type}
    (out : Settled Body Err) (w : World) :
  getAccessToken (localStorage (fst (logout out w))) = None.
Proof. destruct out; cbn; apply clearTokens_access. Qed.

(** After a logout, however the request went, every protected page sends
    to the login page, with the page asked for in the [redirect] query;
    after a successful login with a non-empty access token, protected pages
    open and the login page sends to the chat. *)
Theorem guard_follows_session
    {Body Err : Type} (out : Settled Body Err)
    (post : Settled (Chat.ApiResponse AuthResponse) Chat.AxiosError)
    (w : World) (full : string) :
  beforeEach (localStorage (fst (logout out w)))
             {| fullPath := full; to_meta := protected |}
  = goTo "Login" (Some full) ∧
  (snd (login post w) = true →
   truthy_string (getAccessToken (localStorage (fst (login post w)))) = true →
   beforeEach (localStorage (fst (login post w)))
              {| fullPath := full; to_meta := protected |} = proceed ∧
   beforeEach (localStorage (fst (login post w)))
              {| fullPath := full; to_meta := forGuests |} = goTo "Chat" None).
Proof.
  split.
  - pose proof (logout_always_clears_storage out w) as Hclear.
    unfold beforeEach. rewrite Hclear. reflexivity.
  - intros _ Htoken. unfold beforeEach. rewrite Htoken. split; reflexivity.
Qed.

Lemma guard_follows_session_witness :
  beforeEach (localStorage (fst (login (Fulfilled welcome) visitor)))
             {| fullPath := "/files"; to_meta := protected |} = proceed.
Proof.
  destruct (guard_follows_session
              (Body := unit) (Err := unit) (Fulfilled tt)
              (Fulfilled welcome) visitor "/files") as [_ H].
  destruct H as [H _]; [reflexivity | vm_compute; reflexivity | exact H].
Defined.

End AuthFacts.

(** ** More on the chat store *)

Section ChatActionFacts.
Import Chat ChatActions.

(** Without an active session [sendMessage] returns false at once: no
    request, no message, no error, and [sending] as it was. *)
Theorem sendMessage_needs_session
    (now : Z) (iso : string) (d : SendMessageRequest)
    (r : Settled (ApiResponse ChatMessage) AxiosError) (st : ChatStore) :
  currentSession st = None →
  sendMessage_start now iso d st = (st, None) ∧
  sendMessage now iso d r st = (st, false).
Proof.
  intros Hs. unfold sendMessage, sendMessage_start. rewrite Hs.
  split; reflexivity.
Qed.

Lemma sendMessage_needs_session_witness :
  sendMessage 1 "t" hello (Fulfilled helloReply) (clearCurrentSession activeStore)
  = (clearCurrentSession activeStore, false).
Proof.
  apply (sendMessage_needs_session 1 "t" hello (Fulfilled helloReply)
           (clearCurrentSession activeStore)).
  reflexivity.
Defined.

(** Two [sendMessage] calls in flight at once: when one of them fails, its
    rollback removes the last message of the list, which is the other
    call's, and leaves its own. *)
Theorem rollback_removes_the_last_message
    (now1 now2 : Z) (iso1 iso2 : string) (d1 d2 : SendMessageRequest)
    (err : AxiosError) (st : ChatStore) (s : ChatSession) :
  currentSession st = Some s →
  let st1 := fst (sendMessage_start now1 iso1 d1 st) in
  let st2 := fst (sendMessage_start now2 iso2 d2 st1) in
  messages (fst (sendMessage_resume (Rejected err) st2))
  = messages st ++ [userMessage now1 iso1 d1].
Proof.
  intros Hs. cbv zeta.
  rewrite (sendMessage_start_active _ _ _ _ _ Hs). cbn [fst].
  rewrite (sendMessage_start_active now2 iso2 d2 _ s) by exact Hs.
  cbn. rewrite removelast_last. reflexivity.
Qed.

Lemma rollback_removes_the_last_message_witness :
  let st1 := fst (sendMessage_start 1 "t1" hello activeStore) in
  let st2 := fst (sendMessage_start 2 "t2" hello st1) in
  messages (fst (sendMessage_resume
                   (Rejected {| error_message := None |}) st2))
  = [userMessage 1 "t1" hello].
Proof.
  apply (rollback_removes_the_last_message
           1 2 "t1" "t2" hello hello {| error_message := None |}
           activeStore testSession).
  reflexivity.
Defined.

(** [createSession] followed by [sendMessage], both successful: the new
    session is the first of the list and the active one, and the message
    list holds exactly the user's message and the reply. *)
Theorem createSession_then_sendMessage
    (created : ApiResponse ChatSession) (reply : ApiResponse ChatMessage)
    (now : Z) (iso : string) (d : SendMessageRequest) (st : ChatStore) :
  success created = true → success reply = true →
  let '(st1, newId) := createSession (Fulfilled created) st in
  let '(st2, returned) := sendMessage now iso d (Fulfilled reply) st1 in
  newId = Some (session_id (data created)) ∧
  returned = true ∧
  sessions st2 = data created :: sessions st ∧
  currentSession st2 = Some (data created) ∧
  messages st2 = [userMessage now iso d; data reply] ∧
  loading st2 = false ∧ sending st2 = false.
Proof.
  intros Hc Hr. unfold createSession, createSession_resume. rewrite Hc.
  unfold sendMessage, sendMessage_start. cbn. rewrite Hr. cbn.
  repeat split.
Qed.

Lemma createSession_then_sendMessage_witness :
  let created := {| success := true; response_message := "ok";
                    data := otherSession; errors := None |} in
  let '(st1, newId) := createSession (Fulfilled created) activeStore in
  let '(st2, returned) :=
    sendMessage 1 "t1" hello (Fulfilled helloReply) st1 in
  newId = Some 8%Z ∧
  returned = true ∧
  sessions st2 = [otherSession; testSession] ∧
  currentSession st2 = Some otherSession ∧
  messages st2 = [userMessage 1 "t1" hello; data helloReply] ∧
  loading st2 = false ∧ sending st2 = false.
Proof.
  apply (createSession_then_sendMessage
           {| success := true; response_message := "ok";
              data := otherSession; errors := None |}
           helloReply 1 "t1" hello activeStore); reflexivity.
Defined.

(** Paging through the history: a reset fetch replaces the list with the
    first page, a following fetch asks for page 2 and appends it; and once
    a page says there is no next one, a fetch without reset asks the server
    nothing and leaves the store as it is. *)
Theorem fetchSessions_pages
    (first second : PaginatedResponse ChatSession)
    (r : Settled (PaginatedResponse ChatSession) AxiosError)
    (st : ChatStore) :
  success (envelope first) = true → success (envelope second) = true →
  let st1 := fetchSessions true (Fulfilled first) st in
  snd (fetchSessions_start true st) = Some 1%Z ∧
  sessions st1 = data (envelope first) ∧
  loading st1 = false ∧
  (has_next (pagination first) = true →
   snd (fetchSessions_start false st1) = Some 2%Z ∧
   sessions (fetchSessions false (Fulfilled second) st1)
   = data (envelope first) ++ data (envelope second)) ∧
  (has_next (pagination first) = false →
   fetchSessions_start false st1 = (st1, None) ∧
   fetchSessions false r st1 = st1).
Proof.
  intros H1 H2. cbv zeta.
  unfold fetchSessions, fetchSessions_start, fetchSessions_resume.
  cbn. rewrite H1. cbn.
  split; [reflexivity |]. split; [reflexivity |]. split; [reflexivity |].
  split; intros Hnext; rewrite Hnext; cbn.
  - rewrite H2. cbn. split; reflexivity.
  - split; reflexivity.
Qed.

Lemma fetchSessions_pages_witness :
  let st1 :=
    fetchSessions true (Fulfilled (lastPage [testSession; otherSession]))
                  activeStore in
  sessions st1 = [testSession; otherSession] ∧
  fetchSessions false (Fulfilled (lastPage [testSession; otherSession])) st1
  = st1.
Proof.
  pose proof (fetchSessions_pages
                (lastPage [testSession; otherSession])
                (lastPage [testSession; otherSession])
                (Fulfilled (lastPage [testSession; otherSession]))
                activeStore eq_refl eq_refl) as H.
  cbv zeta in H. destruct H as (_ & H1 & _ & _ & H2).
  destruct (H2 eq_refl) as [_ H3]. split; assumption.
Defined.

(** A fetch that throws keeps the sessions it had, sets an error and ends
    with [loading] false; a reset fetch that throws has all the same
    rewound the cursor to page 1. *)
Theorem fetchSessions_failure
    (reset : bool) (err : AxiosError) (st : ChatStore) :
  (reset = false → hasMore st = true) →
  let st1 := fetchSessions reset (Rejected err) st in
  sessions st1 = sessions st ∧
  loading st1 = false ∧
  error st1 = Some (or_else (error_message err) "Failed to fetch sessions") ∧
  page st1 = (if reset then 1%Z else page st) ∧
  hasMore st1 = true.
Proof.
  intros Hmore. cbv zeta.
  unfold fetchSessions, fetchSessions_start, fetchSessions_resume.
  destruct reset; cbn.
  - repeat split.
  - rewrite (Hmore eq_refl). cbn. repeat split. apply (Hmore eq_refl).
Qed.

Lemma fetchSessions_failure_witness :
  let st1 :=
    fetchSessions true (Rejected {| error_message := None |}) activeStore in
  sessions st1 = [testSession] ∧
  loading st1 = false ∧
  error st1 = Some "Failed to fetch sessions" ∧
  page st1 = 1%Z ∧ hasMore st1 = true.
Proof.
  apply (fetchSessions_failure true {| error_message := None |} activeStore).
  discriminate.
Defined.




(** A [deleteSession] or a [loadSession] that fails, by throwing or by an
    envelope without success, leaves the sessions, the active session and
    the messages as they were. *)
Theorem failed_actions_keep_the_conversation
    (sessionId : Z) (del : Settled (ApiResponse unit) AxiosError)
    (load : Settled (ApiResponse ChatSessionDetail) AxiosError)
    (st : ChatStore) :
  (snd (deleteSession sessionId del st) = false →
   let st1 := fst (deleteSession sessionId del st) in
   sessions st1 = sessions st ∧ currentSession st1 = currentSession st ∧
   messages st1 = messages st) ∧
  (snd (loadSession load st) = false →
   let st1 := fst (loadSession load st) in
   sessions st1 = sessions st ∧ currentSession st1 = currentSession st ∧
   messages st1 = messages st ∧ loading st1 = false) ∧
  (snd (loadSession load st) = true →
   ∃ response, load = Fulfilled response ∧
     currentSession (fst (loadSession load st))
       = Some (session (data response)) ∧
     messages (fst (loadSession load st)) = detail_messages (data response) ∧
     sessions (fst (loadSession load st)) = sessions st).
Proof.
  unfold deleteSession, loadSession, loadSession_resume.
  split; [| split].
  - destruct del as [response | err]; [destruct (success response) |]; cbn;
      intros H; try discriminate; repeat split.
  - destruct load as [response | err]; [destruct (success response) |]; cbn;
      intros H; try discriminate; repeat split.
  - destruct load as [response | err]; [destruct (success response) |]; cbn;
      intros H; try discriminate. exists response. repeat split.
Qed.

Lemma failed_actions_keep_the_conversation_witness :
  let st1 :=
    fst (loadSession (Rejected {| error_message := None |}) activeStore) in
  sessions st1 = [testSession] ∧ currentSession st1 = Some testSession ∧
  messages st1 = [] ∧ loading st1 = false.
Proof.
  destruct (failed_actions_keep_the_conversation
              7 (Fulfilled deleted) (Rejected {| error_message := None |})
              activeStore) as (_ & H & _).
  apply H. reflexivity.
Defined.

Lemma toggleDocument_cons (d y : Z) (l : list Z) :
  toggleDocument d (y :: l)
  = if (y =? d)%Z then l else y :: toggleDocument d l.
Proof.
  unfold toggleDocument. cbn. destruct (y =? d)%Z; [reflexivity |].
  destruct (indexOf d l); reflexivity.
Qed.

Lemma toggleDocument_members (d : Z) (ids : list Z) :
  List.NoDup ids →
  List.NoDup (toggleDocument d ids) ∧
  (In d (toggleDocument d ids) ↔ ¬ In d ids) ∧
  (∀ x, x ≠ d → (In x (toggleDocument d ids) ↔ In x ids)).
Proof.
  induction ids as [| y l IH]; intros Hnd.
  - cbn. split; [repeat constructor; intros [] |].
    split; [tauto |]. intros x Hx. split; [intros [H | []]; congruence | intros []].
  - inversion Hnd as [| y' l' Hy Hl]; subst.
    destruct (IH Hl) as (IH1 & IH2 & IH3).
    rewrite toggleDocument_cons. destruct (y =? d)%Z eqn:Hyd.
    + apply Z.eqb_eq in Hyd. subst y.
      split; [exact Hl |]. split.
      * split; [intros H; contradiction | intros H; exfalso; apply H; left; reflexivity].
      * intros x Hx. split; [intros H; right; exact H |].
        intros [H | H]; [congruence | exact H].
    + apply Z.eqb_neq in Hyd.
      split; [constructor; [rewrite (IH3 y Hyd); exact Hy | exact IH1] |].
      split.
      * split.
        -- intros [H | H]; [congruence |]. apply IH2 in H.
           intros [H' | H']; [congruence | contradiction].
        -- intros H. right. apply IH2. intros H'. apply H. right. exact H'.
      * intros x Hx. cbn. rewrite (IH3 x Hx). reflexivity.
Qed.

(** Toggling a document in the selection of the chat view: a selection
    without repeats stays without repeats, the document toggled changes
    sides, every other document stays where it was, and toggling it again
    gives back the same selection as a set. *)
Theorem toggleDocument_flips (docId : Z) (selectedDocIds : list Z) :
  List.NoDup selectedDocIds →
  let toggled := toggleDocument docId selectedDocIds in
  List.NoDup toggled ∧
  (In docId toggled ↔ ¬ In docId selectedDocIds) ∧
  (∀ x, x ≠ docId → (In x toggled ↔ In x selectedDocIds)) ∧
  (∀ x, In x (toggleDocument docId toggled) ↔ In x selectedDocIds) ∧
  (¬ In docId selectedDocIds →
   toggled = selectedDocIds ++ [docId] ∧
   toggleDocument docId toggled = selectedDocIds).
Proof.
  intros Hnd. cbv zeta.
  destruct (toggleDocument_members docId selectedDocIds Hnd) as (H1 & H2 & H3).
  destruct (toggleDocument_members docId _ H1) as (H1' & H2' & H3').
  split; [exact H1 |]. split; [exact H2 |]. split; [exact H3 |].
  split.
  - intros x. destruct (Z.eq_dec x docId) as [-> | Hx].
    + rewrite H2', H2. destruct (in_dec Z.eq_dec docId selectedDocIds); tauto.
    + rewrite (H3' x Hx). apply H3. exact Hx.
  - intros Hout. clear - Hout.
    induction selectedDocIds as [| y l IH]; [cbn; split; [reflexivity |] |].
    + unfold toggleDocument. cbn. rewrite Z.eqb_refl. reflexivity.
    + assert (Hy : (y =? docId)%Z = false)
        by (apply Z.eqb_neq; intros ->; apply Hout; left; reflexivity).
      destruct IH as [IHa IHb]; [intros H; apply Hout; right; exact H |].
      rewrite toggleDocument_cons, Hy, IHa. split; [reflexivity |].
      change ((y :: l) ++ [docId]) with (y :: (l ++ [docId])).
      rewrite toggleDocument_cons, Hy. rewrite <- IHa, IHb. reflexivity.
Qed.

Lemma toggleDocument_flips_witness :
  toggleDocument 5 [3; 5; 8]%Z = [3; 8]%Z ∧
  toggleDocument 5 [3; 8]%Z = [3; 8; 5]%Z ∧
  List.NoDup (toggleDocument 5 [3; 8]%Z).
Proof.
  assert (Hnd : List.NoDup [3%Z; 8%Z])
    by (repeat constructor; cbn; intuition discriminate).
  destruct (toggleDocument_flips 5 [3; 8]%Z Hnd) as (H1 & _ & _ & _ & H5).
  destruct H5 as [H5 _]; [cbn; intuition discriminate |].
  split; [reflexivity |]. split; [exact H5 | exact H1].
Defined.

End ChatActionFacts.

(** ** The files store *)

Section FilesFacts.
Import Chat Files.

(** The three getters split the files: every file is in exactly one of
    [completedFiles], [pendingFiles] and [failedFiles]. *)
Theorem getters_partition_files (st : FilesStore) (f : FileDocument) :
  (List.length (completedFiles st) + List.length (pendingFiles st)
   + List.length (failedFiles st) = List.length (files st))%nat ∧
  (In f (files st) ↔
   In f (completedFiles st) ∨ In f (pendingFiles st) ∨ In f (failedFiles st)) ∧
  ¬ (In f (completedFiles st) ∧ In f (pendingFiles st)) ∧
  ¬ (In f (completedFiles st) ∧ In f (failedFiles st)) ∧
  ¬ (In f (pendingFiles st) ∧ In f (failedFiles st)).
Proof.
  unfold completedFiles, pendingFiles, failedFiles.
  split.
  { induction (files st) as [| g l IH]; [reflexivity |].
    cbn. destruct (parsing_status g); cbn; lia. }
  rewrite !List.filter_In.
  repeat split.
  - intros Hin. destruct (parsing_status f) eqn:Hs; cbn; auto.
  - intros [[H _] | [[H _] | [H _]]]; exact H.
  - intros [[_ H1] [_ H2]]. destruct (parsing_status f); discriminate.
  - intros [[_ H1] [_ H2]]. destruct (parsing_status f); discriminate.
  - intros [[_ H1] [_ H2]]. destruct (parsing_status f); discriminate.
Qed.

Lemma findIndex_Some docId l i :
  findIndex docId l = Some i → ∃ f, l !! i = Some f ∧ id f = docId.
Proof.
  revert i. induction l as [| g l IH]; intros i; cbn; [discriminate |].
  destruct (id g =? docId)%Z eqn:Hg.
  - intros [= <-]. exists g. split; [reflexivity | apply Z.eqb_eq; exact Hg].
  - destruct (findIndex docId l) as [j |]; cbn; [| discriminate].
    intros [= <-]. apply (IH j). reflexivity.
Qed.

Lemma findIndex_None docId l :
  findIndex docId l = None ↔ ∀ f, In f l → id f ≠ docId.
Proof.
  induction l as [| g l IH]; cbn.
  - split; [intros _ f [] | reflexivity].
  - destruct (id g =? docId)%Z eqn:Hg.
    + apply Z.eqb_eq in Hg. split; [discriminate |].
      intros H. exfalso. apply (H g); [left; reflexivity | exact Hg].
    + apply Z.eqb_neq in Hg. destruct (findIndex docId l) as [j |]; cbn.
      * split; [discriminate |]. intros H.
        assert (Hnone : @None nat = None) by reflexivity.
        destruct IH as [_ IH]. discriminate IH.
        intros f Hf. apply H. right. exact Hf.
      * split; [| reflexivity]. intros _ f [<- | Hf]; [exact Hg |].
        destruct IH as [IH _]. apply (IH eq_refl). exact Hf.
Qed.

(** [refreshFileStatus]: a successful report rewrites the status, the
    error, the chunk count and the parse date of the first file with that
    id and of no other; the list keeps its length and every file its place,
    id, name, type, size and upload time.  A report for an id that is not
    in the list, an envelope without success and a request that throws all
    leave the store as it was, without an error. *)
Theorem refreshFileStatus_updates_one
    (docId : Z) (r : Settled (ApiResponse FileStatus) AxiosError)
    (st : FilesStore) :
  let st1 := refreshFileStatus docId r st in
  List.length (files st1) = List.length (files st) ∧
  error st1 = error st ∧
  (∀ j f, files st !! j = Some f →
     ∃ f', files st1 !! j = Some f' ∧
           id f' = id f ∧ filename f' = filename f ∧
           file_type f' = file_type f ∧ file_size f' = file_size f ∧
           upload_time f' = upload_time f ∧
           (findIndex docId (files st) ≠ Some j → f' = f)) ∧
  (∀ response j, r = Fulfilled response → success response = true →
     findIndex docId (files st) = Some j →
     ∃ f', files st1 !! j = Some f' ∧ id f' = docId ∧
           parsing_status f' = status_parsing_status (data response) ∧
           parsing_error f' = status_parsing_error (data response) ∧
           chunk_count f' = status_chunk_count (data response) ∧
           parsed_at f' = status_parsed_at (data response)) ∧
  ((∀ f, In f (files st) → id f ≠ docId) → st1 = st) ∧
  ((∀ response, r = Fulfilled response → success response = false) →
   st1 = st).
Proof.
  cbv zeta. unfold refreshFileStatus.
  destruct r as [response | err];
    [destruct (success response) eqn:Hok |];
    try (repeat split; intros; simplify_eq; eauto 10; fail).
  - destruct (findIndex docId (files st)) as [i |] eqn:Hfind;
      [| repeat split; intros; simplify_eq; eauto 10].
    destruct (findIndex_Some _ _ _ Hfind) as (g & Hg & Hid).
    rewrite Hg. cbn [files error set_files].
    split; [apply length_insert |]. split; [reflexivity |].
    split.
    { intros j f Hj. destruct (decide (i = j)) as [<- | Hij].
      - rewrite list_lookup_insert_eq by (eapply lookup_lt_Some; eauto).
        eexists. split; [reflexivity |]. simplify_eq. cbn.
        repeat split. intros H. congruence.
      - rewrite list_lookup_insert_ne by exact Hij.
        exists f. repeat split; auto. }
    split.
    { intros response' j Hr _ [= <-]. injection Hr as <-.
      rewrite list_lookup_insert_eq by (eapply lookup_lt_Some; eauto).
      eexists. split; [reflexivity |]. cbn. repeat split. exact Hid. }
    split.
    { intros Hnone. exfalso. apply (Hnone g); [| exact Hid].
      apply list_elem_of_In. eapply list_elem_of_lookup_2. exact Hg. }
    intros H. specialize (H response eq_refl). congruence.
  - split; [reflexivity |]. split; [reflexivity |].
    split; [intros j f Hj; exists f; repeat split; auto |].
    split; [intros response' j [= <-] H; congruence |].
    split; reflexivity.
Qed.

Lemma refreshFileStatus_updates_one_witness :
  files (refreshFileStatus 1 (Fulfilled reportParsed) twoFiles)
  = [ {| id := 1; filename := "report.pdf"; file_type := "pdf";
         file_size := 1024; parsing_status := completed;
         parsing_error := None; chunk_count := 12;
         upload_time := "2024-01-01T00:00:00.000Z";
         parsed_at := Some "2024-01-01T00:02:00.000Z" |}; notes ] ∧
  refreshFileStatus 9 (Fulfilled reportParsed) twoFiles = twoFiles.
Proof.
  destruct (refreshFileStatus_updates_one 9 (Fulfilled reportParsed) twoFiles)
    as (_ & _ & _ & _ & H & _).
  split; [reflexivity |]. apply H.
  intros f [<- | [<- | []]]; discriminate.
Defined.

(** [uploadFile] settles with [uploading] false and the progress back at
    0, whatever progress was reported; when it returns true the new file
    is the first of the list, not parsed yet, and when it returns false the
    list is as it was. *)
Theorem uploadFile_outcomes
    (percent : Z) (r : Settled (ApiResponse FileUploadResponse) AxiosError)
    (st : FilesStore) :
  let busy := uploadFile_progress percent (uploadFile_start st) in
  let '(st1, returned) := uploadFile_resume r busy in
  uploading busy = true ∧ uploadProgress busy = percent ∧
  uploading st1 = false ∧ uploadProgress st1 = 0%Z ∧
  (if returned
   then ∃ response, r = Fulfilled response ∧
          files st1 = newFile (data response) :: files st ∧
          chunk_count (newFile (data response)) = 0%Z ∧
          parsed_at (newFile (data response)) = None
   else files st1 = files st).
Proof.
  cbv zeta. unfold uploadFile_resume.
  destruct r as [response | err]; [destruct (success response) |]; cbn;
    repeat split. exists response. repeat split.
Qed.

Lemma list_insert_same_place {A} (l : list A) (i : nat) (x y : A)
    (keep : A → A) :
  l !! i = Some x → keep y = keep x → keep <$> <[i := y]> l = keep <$> l.
Proof.
  intros Hx Hk. rewrite list_fmap_insert, Hk.
  apply list_insert_id. rewrite list_lookup_fmap, Hx. reflexivity.
Qed.

(** [deleteFile] and [reparseFile], when they succeed: the first leaves
    no file of that id and keeps the others in their order; the second
    changes nothing but the parsing status, and that of the first file
    with the id only. *)
Theorem deleteFile_and_reparseFile
    (docId : Z) (gone : ApiResponse unit) (again : ApiResponse Reparsed)
    (st : FilesStore) :
  success gone = true → success again = true →
  files (fst (deleteFile docId (Fulfilled gone) st))
  = List.filter (fun f => negb (id f =? docId)%Z) (files st) ∧
  (∀ f, In f (files (fst (deleteFile docId (Fulfilled gone) st)))
        → id f ≠ docId) ∧
  let st1 := fst (reparseFile docId (Fulfilled again) st) in
  List.length (files st1) = List.length (files st) ∧
  (∀ j f, files st !! j = Some f →
     ∃ f', files st1 !! j = Some f' ∧
           f' = {| id := id f; filename := filename f;
                   file_type := file_type f; file_size := file_size f;
                   parsing_status := parsing_status f';
                   parsing_error := parsing_error f;
                   chunk_count := chunk_count f;
                   upload_time := upload_time f; parsed_at := parsed_at f |} ∧
           (findIndex docId (files st) = Some j →
            parsing_status f' = reparsed_parsing_status (data again)) ∧
           (findIndex docId (files st) ≠ Some j → f' = f)).
Proof.
  intros Hgone Hagain. unfold deleteFile, reparseFile.
  rewrite Hgone, Hagain. cbn [fst files set_files].
  split; [reflexivity |]. split.
  { intros f Hf. apply List.filter_In in Hf. destruct Hf as [_ Hf].
    apply negb_true_iff, Z.eqb_neq in Hf. exact Hf. }
  cbv zeta.
  destruct (findIndex docId (files st)) as [i |] eqn:Hfind.
  - destruct (findIndex_Some _ _ _ Hfind) as (g & Hg & Hid).
    rewrite Hg. cbn [files set_files].
    split; [apply length_insert |].
    intros j f Hj. destruct (decide (i = j)) as [<- | Hij].
    + rewrite list_lookup_insert_eq by (eapply lookup_lt_Some; eauto).
      eexists. split; [reflexivity |]. simplify_eq. cbn.
      repeat split. intros H. congruence.
    + rewrite list_lookup_insert_ne by exact Hij.
      exists f. split; [exact Hj |]. split; [destruct f; reflexivity |].
      split; [intros [= H]; contradiction | reflexivity].
  - split; [reflexivity |]. intros j f Hj.
    exists f. split; [exact Hj |]. split; [destruct f; reflexivity |].
    split; [discriminate | reflexivity].
Qed.

Lemma deleteFile_and_reparseFile_witness :
  files (fst (deleteFile 1 (Fulfilled ChatActions.deleted) twoFiles))
  = [notes].
Proof.
  destruct (deleteFile_and_reparseFile
              1 ChatActions.deleted
              {| success := true; response_message := "ok";
                 data := {| reparsed_id := 1;
                            reparsed_parsing_status := pending |};
                 errors := None |}
              twoFiles eq_refl eq_refl) as (H & _).
  rewrite H. reflexivity.
Defined.

End FilesFacts.

(** ** The theme store *)

Section ThemeFacts.
Import TokenStore Theme.

Lemma applyTheme_shows (t : Theme) (p : Page) : shows t (applyTheme t p).
Proof.
  unfold shows, applyTheme. cbn. split; [apply lookup_insert_eq |].
  destruct t.
  - split; [reflexivity | intros _].
    apply elem_of_union. left. apply elem_of_singleton. reflexivity.
  - split; [| discriminate]. intros H.
    apply elem_of_difference in H as [_ H]. exfalso. apply H.
    apply elem_of_singleton. reflexivity.
Qed.

Lemma shows_getInitialTheme (t : Theme) (p : Page) :
  shows t p → getInitialTheme p = t.
Proof.
  intros [Hsaved _]. unfold getInitialTheme. rewrite Hsaved.
  destruct t; reflexivity.
Qed.

Lemma act_shows (a : Action) (s : Theme * Page) :
  shows (fst s) (snd s) → shows (fst (act a s)) (snd (act a s)).
Proof.
  destruct s as [t p]. cbn [fst snd]. intros Hs.
  destruct a as [| t']; cbn; unfold watchTheme.
  - destruct t; cbn; apply applyTheme_shows.
  - destruct t, t'; cbn; try exact Hs; apply applyTheme_shows.
Qed.

(** Whatever the user does with [toggleTheme] and [setTheme], the page
    shows the store's theme: the saved value is its name and the [dark]
    class is set exactly when it is dark.  So a store set up again on that
    page, as after a reload, starts with the same theme, whatever the
    system prefers. *)
Theorem theme_is_shown_and_kept
    (actions : list Action) (p : Page) (system : bool) :
  let '(theme, page) :=
    fold_left (fun s a => act a s) actions (useThemeStore p) in
  shows theme page ∧
  fst (useThemeStore {| localStorage := localStorage page;
                        classList := classList page;
                        prefersDark := system |}) = theme.
Proof.
  assert (H : ∀ s, shows (fst s) (snd s) →
              shows (fst (fold_left (fun s a => act a s) actions s))
                    (snd (fold_left (fun s a => act a s) actions s))).
  { induction actions as [| a l IH]; intros s Hs; [exact Hs |].
    cbn. apply IH, act_shows, Hs. }
  specialize (H (useThemeStore p) (applyTheme_shows _ _)).
  destruct (fold_left _ _ _) as [theme page]. cbn [fst snd] in *.
  split; [exact H |].
  unfold useThemeStore. cbn [fst]. apply shows_getInitialTheme.
  destruct H as [H1 H2]. split; assumption.
Qed.

(** The theme and the tokens do not touch each other: storing or clearing
    tokens leaves the saved theme, and applying a theme leaves the
    tokens. *)
Theorem theme_and_tokens_are_independent
    (a r : string) (t : Theme) (p : Page) :
  getInitialTheme {| localStorage := clearTokens (localStorage p);
                     classList := classList p;
                     prefersDark := prefersDark p |} = getInitialTheme p ∧
  getInitialTheme {| localStorage := setTokens a r (localStorage p);
                     classList := classList p;
                     prefersDark := prefersDark p |} = getInitialTheme p ∧
  getAccessToken (localStorage (applyTheme t p))
  = getAccessToken (localStorage p) ∧
  getRefreshToken (localStorage (applyTheme t p))
  = getRefreshToken (localStorage p).
Proof.
  unfold getInitialTheme, applyTheme, getAccessToken, getRefreshToken,
    setTokens. cbn [localStorage prefersDark].
  rewrite clearTokens_other by discriminate.
  rewrite !lookup_insert_ne by discriminate.
  repeat split.
Qed.

End ThemeFacts.

(** ** More on the streaming consumer *)

Section StreamMoreFacts.
Import Js Stream StreamObservations.

(** How the server's text is cut into chunks does not matter: two streams
    with the same text make the same calls, in the same order. *)
Theorem chunking_is_irrelevant
    (parse : string → option JsValue) (chunks1 chunks2 : list string) :
  join chunks1 = join chunks2 →
  feed parse chunks1 = feed parse chunks2 ∧
  feed parse chunks1 = feed parse [join chunks1].
Proof.
  intros Hjoin. rewrite !feed_lines. unfold completeLines.
  rewrite Hjoin. cbn [join]. rewrite append_empty. split; reflexivity.
Qed.

Lemma chunking_is_irrelevant_witness :
  feed JsonReader.parse
       [text "data: {'content':'a'}" +:+ NL +:+ "data: "; "oops" +:+ NL]
  = feed JsonReader.parse
         [text "data: {'con"; text "tent':'a'}" +:+ NL;
          "data: oops" +:+ NL].
Proof.
  apply (chunking_is_irrelevant JsonReader.parse). vm_compute. reflexivity.
Defined.

Lemma split_terminated (t : string) :
  split (t +:+ NL) = split t ++ [EmptyString].
Proof.
  induction t as [| c r IH]; [reflexivity |].
  rewrite append_cons. cbn [split]. rewrite IH.
  destruct (Ascii.eqb c LF); [reflexivity |].
  pose proof (split_nonempty r) as Hr.
  destruct (split r) as [| h l]; [contradiction | reflexivity].
Qed.

(** A last line that the stream does not end with a line feed is never
    handed to a callback: the calls are those of the text up to the last
    line feed, and a stream without any line feed makes none. *)
Theorem unterminated_line_is_dropped
    (parse : string → option JsValue) (body tail : string) :
  split tail = [tail] →
  feed parse [body +:+ NL +:+ tail] = feed parse [body +:+ NL] ∧
  feed parse [body +:+ NL +:+ tail] = flat_map (processLine parse) (split body) ∧
  feed parse [tail] = [].
Proof.
  intros Htail. rewrite !feed_lines. unfold completeLines. cbn [join].
  rewrite !append_empty, Htail.
  rewrite <- append_assoc, split_append, split_terminated.
  rewrite removelast_last, last_last. change (EmptyString +:+ tail) with tail.
  rewrite Htail, removelast_last. repeat split.
Qed.

Lemma unterminated_line_is_dropped_witness :
  feed JsonReader.parse
       [text "data: {'content':'a'}" +:+ NL +:+ text "data: {'content':'b'}"]
  = [onChunk (JString "a")].
Proof.
  destruct (unterminated_line_is_dropped
              JsonReader.parse (text "data: {'content':'a'}")
              (text "data: {'content':'b'}")) as (_ & H & _).
  - vm_compute. reflexivity.
  - rewrite H. vm_compute. reflexivity.
Defined.

Lemma errorCalls_app (l1 l2 : list Callback) :
  errorCalls (l1 ++ l2) = errorCalls l1 ++ errorCalls l2.
Proof. unfold errorCalls. apply flat_map_app. Qed.

Lemma errorCalls_none (l : list Callback) :
  Forall (fun c => match c with onError _ => False | _ => True end) l →
  errorCalls l = [].
Proof.
  induction 1 as [| c l Hc Hl IH]; [reflexivity |].
  destruct c; cbn in *; try contradiction; exact IH.
Qed.

Lemma finished_stays_finished parse inputs c :
  phase c = Finished →
  snd (run parse inputs c) = [] ∧ phase (fst (run parse inputs c)) = Finished.
Proof.
  revert c. induction inputs as [| i inputs IH]; intros c Hc;
    [split; [reflexivity | exact Hc] |].
  cbn [run].
  assert (Hstep : snd (step parse i c) = [] ∧
                  phase (fst (step parse i c)) = Finished).
  { unfold step. rewrite Hc.
    destruct i as [[response | error] | [[value |] | error] |]; cbn;
      split; (reflexivity || exact Hc). }
  destruct (step parse i c) as [c1 calls1]. cbn [fst snd] in Hstep.
  destruct Hstep as [-> Hc1]. specialize (IH c1 Hc1).
  destruct (run parse inputs c1) as [c2 calls2]. cbn [fst snd] in *.
  exact IH.
Qed.

Lemma finished_is_silent parse inputs c :
  phase c = Finished → snd (run parse inputs c) = [].
Proof. intros Hc. apply finished_stays_finished, Hc. Qed.

Lemma step_error_finishes parse i c :
  (List.length (errorCalls (snd (step parse i c))) ≤ 1)%nat ∧
  (errorCalls (snd (step parse i c)) ≠ [] →
   phase (fst (step parse i c)) = Finished).
Proof.
  assert (Hcatch : ∀ e, (List.length (errorCalls (catchHandler e)) ≤ 1)%nat).
  { intros e. rewrite catchHandler_spec. destruct (String.eqb _ _); cbn; lia. }
  unfold step.
  destruct i as [[response | error] | [[value |] | error] |];
    destruct (phase c) as [| buffer |]; cbn -[catchHandler];
    try (split; [lia | congruence]);
    try (split; [apply Hcatch | reflexivity]).
  - destruct (negb (ok response)); [split; [apply Hcatch | reflexivity] |].
    destruct (negb (hasReader response));
      [split; [apply Hcatch | reflexivity] |].
    cbn. split; [lia | congruence].
  - pose proof (onRead_no_error parse buffer value) as Hno.
    unfold onRead in Hno. cbn [snd] in Hno.
    pose proof (errorCalls_none _ Hno) as He. unfold errorCalls in He.
    rewrite He. cbn. split; [lia | congruence].
Qed.

(** [onError] is called at most once for a call of [streamMessage], and
    after it, as after the end of the stream, no callback is called any
    more. *)
Theorem onError_at_most_once
    (parse : string → option JsValue) (inputs later : list Input) :
  let '(c, calls) := run parse inputs streamMessage in
  (List.length (errorCalls calls) ≤ 1)%nat ∧
  (errorCalls calls ≠ [] → snd (run parse later c) = []) ∧
  (phase c = Finished → snd (run parse later c) = []).
Proof.
  assert (H : ∀ c0,
             (List.length (errorCalls (snd (run parse inputs c0))) ≤ 1)%nat ∧
             (errorCalls (snd (run parse inputs c0)) ≠ [] →
              phase (fst (run parse inputs c0)) = Finished)).
  { induction inputs as [| i l IH]; intros c0.
    - cbn. split; [lia | congruence].
    - cbn [run].
      destruct (step_error_finishes parse i c0) as [Hlen Hfin].
      destruct (step parse i c0) as [c1 calls1]. cbn [fst snd] in *.
      destruct (IH c1) as [IHlen IHfin].
      pose proof (finished_stays_finished parse l c1) as Hsilent.
      destruct (run parse l c1) as [c2 calls2]. cbn [fst snd] in *.
      rewrite errorCalls_app.
      destruct (errorCalls calls1) as [| e1 rest] eqn:He1.
      + cbn. split; [exact IHlen | exact IHfin].
      + assert (Hc1 : phase c1 = Finished) by (apply Hfin; discriminate).
        destruct (Hsilent Hc1) as [-> Hc2]. cbn.
        rewrite app_nil_r. split; [exact Hlen |]. intros _. exact Hc2. }
  specialize (H streamMessage).
  destruct (run parse inputs streamMessage) as [c calls]. cbn [fst snd] in H.
  destruct H as [Hlen Hfin].
  split; [exact Hlen |].
  split; [intros Hne; apply finished_is_silent, Hfin, Hne |].
  apply finished_is_silent.
Qed.

Lemma onError_at_most_once_witness :
  let '(c, calls) :=
    run JsonReader.parse
        [FetchSettled (Fulfilled okResponse);
         ReadSettled (Rejected networkError)] streamMessage in
  errorCalls calls = [networkError] ∧
  snd (run JsonReader.parse
           [ReadSettled (Fulfilled (Chunk ("data: late" +:+ NL)));
            ReadSettled (Rejected networkError)] c) = [].
Proof.
  pose proof (onError_at_most_once
                JsonReader.parse
                [FetchSettled (Fulfilled okResponse);
                 ReadSettled (Rejected networkError)]
                [ReadSettled (Fulfilled (Chunk ("data: late" +:+ NL)));
                 ReadSettled (Rejected networkError)]) as H.
  destruct (run JsonReader.parse
                [FetchSettled (Fulfilled okResponse);
                 ReadSettled (Rejected networkError)] streamMessage)
    as [c calls] eqn:Hrun.
  assert (Hcalls : errorCalls calls = [networkError]).
  { vm_compute in Hrun. injection Hrun as _ <-. reflexivity. }
  destruct H as (_ & H & _). split; [exact Hcalls |].
  apply H. rewrite Hcalls. discriminate.
Defined.

End StreamMoreFacts.

(** ** The forms *)

Section FormsFacts.
Import Forms.

Lemma empty_false_iff (s : JsString) : empty s = false ↔ s ≠ [].
Proof. destruct s; cbn; split; congruence. Qed.

(** The register form is valid exactly when its three fields are filled
    in and none of them shows an error. *)
Theorem register_valid_iff_no_error
    (username password confirmPassword : JsString) :
  RegisterForm.isValid username password confirmPassword = true ↔
  username ≠ [] ∧ password ≠ [] ∧ confirmPassword ≠ [] ∧
  RegisterForm.usernameError username = "" ∧
  RegisterForm.passwordError password = "" ∧
  RegisterForm.confirmPasswordError confirmPassword password = "".
Proof.
  unfold RegisterForm.isValid, RegisterForm.usernameError,
    RegisterForm.passwordError, RegisterForm.confirmPasswordError.
  rewrite !andb_true_iff, !Nat.leb_le, bool_decide_eq_true.
  split.
  - intros [[[[Hu3 Hu30] Hword] Hp] Hc]. subst confirmPassword.
    assert (Hu : username ≠ []) by (destruct username; cbn in *; [lia | discriminate]).
    assert (Hpw : password ≠ []) by (destruct password; cbn in *; [lia | discriminate]).
    repeat split; try assumption.
    + apply empty_false_iff in Hu. rewrite Hu.
      destruct (Nat.ltb_spec (List.length username) 3); [lia |].
      destruct (Nat.ltb_spec 30 (List.length username)); [lia |].
      rewrite Hword. reflexivity.
    + apply empty_false_iff in Hpw. rewrite Hpw.
      destruct (Nat.ltb_spec (List.length password) 6); [lia | reflexivity].
    + apply empty_false_iff in Hpw. rewrite Hpw.
      rewrite bool_decide_eq_true_2 by reflexivity. reflexivity.
  - intros (Hu & Hp & Hc & Eu & Ep & Ec).
    apply empty_false_iff in Hu, Hp, Hc. rewrite Hu in Eu.
    rewrite Hp in Ep. rewrite Hc in Ec.
    destruct (Nat.ltb_spec (List.length username) 3); [discriminate |].
    destruct (Nat.ltb_spec 30 (List.length username)); [discriminate |].
    destruct (wordOnly username); [| discriminate].
    destruct (Nat.ltb_spec (List.length password) 6); [discriminate |].
    destruct (bool_decide (confirmPassword = password)) eqn:Hd;
      [| discriminate].
    apply bool_decide_eq_true in Hd. repeat split; try lia; assumption.
Qed.

Lemma register_valid_iff_no_error_witness :
  RegisterForm.usernameError (units "alice_01") = "" ∧
  RegisterForm.isValid (units "al") (units "secret1") (units "secret1")
  = false.
Proof.
  split.
  - apply (register_valid_iff_no_error
             (units "alice_01") (units "secret1") (units "secret1")).
    vm_compute. reflexivity.
  - destruct (RegisterForm.isValid (units "al") (units "secret1")
                                   (units "secret1")) eqn:Hv; [| reflexivity].
    apply (register_valid_iff_no_error
             (units "al") (units "secret1") (units "secret1")) in Hv.
    destruct Hv as (_ & _ & _ & Hu & _). vm_compute in Hu. discriminate Hu.
Defined.

(** What the register form accepts, the login form accepts: a user who
    could register with a name and a password can submit them to log in. *)
Theorem login_accepts_what_register_accepts
    (username password confirmPassword : JsString) :
  RegisterForm.isValid username password confirmPassword = true →
  LoginForm.isValid username password = true ∧
  LoginForm.usernameError username = "" ∧
  LoginForm.passwordError password = "".
Proof.
  unfold RegisterForm.isValid, LoginForm.isValid, LoginForm.usernameError,
    LoginForm.passwordError.
  rewrite !andb_true_iff, !Nat.leb_le.
  intros [[[[Hu3 _] _] Hp] _].
  split; [split; assumption |].
  destruct (Nat.ltb_spec (List.length username) 3); [lia |].
  destruct (Nat.ltb_spec (List.length password) 6); [lia |].
  destruct (empty username), (empty password); split; reflexivity.
Qed.

Lemma login_accepts_what_register_accepts_witness :
  LoginForm.isValid (units "alice_01") (units "secret1") = true.
Proof.
  apply (login_accepts_what_register_accepts
           (units "alice_01") (units "secret1") (units "secret1")).
  vm_compute. reflexivity.
Defined.

End FormsFacts.
